(** * UFO sightings pipeline: cleaning, summary statistics, globe export

    A shallow embedding of [src/main.py] ([clean_data], [perform_eda],
    [export_globe_data] and the [__main__] driver) and the properties its
    specification states about them.

    Conventions of the model.
    - A pandas data frame is a list of row records plus the presence flags
      of its optional columns ([shape], [country], [state]).
    - A float64 value is [float]: NaN, the two infinities, or a finite value
      carried as a rational (every finite double is one).  Comparisons follow
      IEEE 754: every comparison with NaN is false.
    - Text is [string]; characters are code points below 128, on which
      [str.lower], [str.upper] and [str.strip] are given exactly.
    - What pandas computes from the text of a cell ([pd.to_datetime],
      [pd.to_numeric]) and the pseudo-random choice of [DataFrame.sample] are
      parameters of the development: the theorems hold for every parser,
      and for every sampler that draws without replacement. *)

From Stdlib Require Import ZArith QArith Qround Qminmax Lqa.
From Stdlib Require Import Reals Qreals Lra Lia.
From Stdlib Require Import List Bool Ascii String DecimalString.
From Stdlib Require Import Permutation Sorted.
Import ListNotations.

Local Open Scope string_scope.
Local Open Scope Z_scope.

(* ================================================================== *)
(** * Text: [str.lower], [str.upper], [str.strip]                      *)
(* ================================================================== *)

Module Text.

(** [str.isspace] on one code point below 128: TAB, LF, VT, FF, CR,
    the separators FS, GS, RS, US, and the space. *)
Definition is_space (c : ascii) : bool :=
  let n := nat_of_ascii c in
  ((9 <=? n) && (n <=? 13) || (28 <=? n) && (n <=? 32))%nat.

Definition lower_char (c : ascii) : ascii :=
  let n := nat_of_ascii c in
  if ((65 <=? n) && (n <=? 90))%nat then ascii_of_nat (n + 32) else c.

Definition upper_char (c : ascii) : ascii :=
  let n := nat_of_ascii c in
  if ((97 <=? n) && (n <=? 122))%nat then ascii_of_nat (n - 32) else c.

Fixpoint lstrip_chars (l : list ascii) : list ascii :=
  match l with
  | [] => []
  | c :: l' => if is_space c then lstrip_chars l' else l
  end.

Definition rstrip_chars (l : list ascii) : list ascii :=
  rev (lstrip_chars (rev l)).

Definition strip_chars (l : list ascii) : list ascii :=
  rstrip_chars (lstrip_chars l).

Definition lower (s : string) : string :=
  string_of_list_ascii (map lower_char (list_ascii_of_string s)).

Definition upper (s : string) : string :=
  string_of_list_ascii (map upper_char (list_ascii_of_string s)).

Definition strip (s : string) : string :=
  string_of_list_ascii (strip_chars (list_ascii_of_string s)).

(** [str.isascii]: every code point of the text is below 128, the texts on
    which [lower], [upper] and [strip] above are Python's. *)
Definition is_ascii (s : string) : bool :=
  forallb (fun c => (nat_of_ascii c <? 128)%nat) (list_ascii_of_string s).

End Text.

(* ================================================================== *)
(** * float64 values                                                   *)
(* ================================================================== *)

Inductive float : Type :=
| NaN
| NegInf
| PosInf
| Fin (q : Q).

Module Float.

Definition of_Z (z : Z) : float := Fin (inject_Z z).

Definition Qltb (a b : Q) : bool := negb (Qle_bool b a).

(** [x < y] and [x <= y] on float64; false as soon as one side is NaN. *)
Definition ltb (x y : float) : bool :=
  match x, y with
  | NaN, _ | _, NaN => false
  | _, NegInf => false
  | NegInf, _ => true
  | PosInf, _ => false
  | Fin _, PosInf => true
  | Fin a, Fin b => Qltb a b
  end.

Definition leb (x y : float) : bool :=
  match x, y with
  | NaN, _ | _, NaN => false
  | NegInf, _ => true
  | _, NegInf => false
  | _, PosInf => true
  | PosInf, Fin _ => false
  | Fin a, Fin b => Qle_bool a b
  end.

Definition gtb (x y : float) : bool := ltb y x.
Definition geb (x y : float) : bool := leb y x.

Definition isna (x : float) : bool :=
  match x with NaN => true | _ => false end.

Definition notna (x : float) : bool := negb (isna x).

Definition add (x y : float) : float :=
  match x, y with
  | NaN, _ | _, NaN => NaN
  | PosInf, NegInf | NegInf, PosInf => NaN
  | PosInf, _ | _, PosInf => PosInf
  | NegInf, _ | _, NegInf => NegInf
  | Fin a, Fin b => Fin (a + b)
  end.

Definition half (x : float) : float :=
  match x with
  | Fin a => Fin (a / 2)
  | _ => x
  end.

(** [Series.clip(lower=lo)] on one value. *)
Definition clip_lower (lo : Q) (x : float) : float :=
  match x with
  | NaN => NaN
  | NegInf => Fin lo
  | PosInf => PosInf
  | Fin q => Fin (Qmax q lo)
  end.

(** [Series.clip(lo, hi)] on one value, [minimum(maximum(x, lo), hi)]:
    the result is finite, or NaN ([None]) when the value is NaN. *)
Definition clip (lo hi : Q) (x : float) : option Q :=
  match x with
  | NaN => None
  | NegInf => Some (Qmin lo hi)
  | PosInf => Some hi
  | Fin q => Some (Qmin (Qmax q lo) hi)
  end.

End Float.

(* ================================================================== *)
(** * Records and frames                                               *)
(* ================================================================== *)

(** A parsed point in time, [pd.Timestamp]. *)
Record Timestamp : Type := mkTimestamp {
  ts_year : Z;
  ts_month : Z;
  ts_day : Z;
  ts_hour : Z;
  ts_minute : Z;
  ts_second : Z
}.

(** A cell of the [datetime] column as [clean_data] receives it: text (what
    the CSV loader yields), a missing value, or an already parsed time stamp
    (the column of a frame that was cleaned before). *)
Inductive time_cell : Type :=
| TText (s : string)
| TNaT
| TStamp (t : Timestamp).

(** A cell of a numeric column as [clean_data] receives it: text, or a
    float64 (NaN when the value is missing). *)
Inductive num_cell : Type :=
| NText (s : string)
| NFloat (x : float).

(** A cell of a text column: [None] is the missing value NaN. *)
Definition text_cell : Type := option string.

(** The optional columns of a frame. *)
Record Columns : Type := mkColumns {
  has_shape : bool;
  has_country : bool;
  has_state : bool
}.

Record RawRow : Type := mkRawRow {
  raw_datetime : time_cell;
  raw_duration_seconds : num_cell;
  raw_latitude : num_cell;
  raw_longitude : num_cell;
  raw_shape : text_cell;
  raw_country : text_cell;
  raw_state : text_cell
}.

Record RawFrame : Type := mkRawFrame {
  raw_columns : Columns;
  raw_rows : list RawRow
}.

(** A row of the frame [clean_data] returns: [datetime] is datetime64, the
    three numeric columns are float64, [year], [month] and [hour] are the
    columns added at lines 17-19.  The cell of an optional column that the
    frame does not have is never read. *)
Record Row : Type := mkRow {
  datetime : Timestamp;
  year : Z;
  month : Z;
  hour : Z;
  duration_seconds : float;
  latitude : float;
  longitude : float;
  shape : text_cell;
  country : text_cell;
  state : text_cell
}.

Record Frame : Type := mkFrame {
  columns : Columns;
  rows : list Row
}.

(** A cleaned frame read back as an input of [clean_data]: typed columns are
    particular loose ones.  The [year], [month] and [hour] columns are not
    carried over: [clean_data] overwrites them before anything reads them. *)
Definition as_raw_row (r : Row) : RawRow :=
  {| raw_datetime := TStamp (datetime r);
     raw_duration_seconds := NFloat (duration_seconds r);
     raw_latitude := NFloat (latitude r);
     raw_longitude := NFloat (longitude r);
     raw_shape := shape r;
     raw_country := country r;
     raw_state := state r |}.

Definition as_raw (df : Frame) : RawFrame :=
  {| raw_columns := columns df; raw_rows := map as_raw_row (rows df) |}.

Set Warnings "-abstract-large-number,-notation-for-abbreviation".

Definition MAX_POINTS_ON_GLOBE : nat := 10000.

(* ================================================================== *)
(** * A small error monad                                              *)
(* ================================================================== *)

(** [None] stands for a dropped row in [clean_row] and for a raised
    exception in [perform_eda] and [main]. *)
Definition bind {A B : Type} (m : option A) (k : A -> option B) : option B :=
  match m with
  | Some a => k a
  | None => None
  end.

Definition guard (b : bool) : option unit :=
  if b then Some tt else None.

Notation "x <- m ;; k" := (bind m (fun x => k))
  (at level 61, m at next level, right associativity).
Notation "'check' b ;; k" := (bind (guard b) (fun _ => k))
  (at level 61, b at next level, right associativity).

(* ================================================================== *)
(** * Column operations on one cell                                    *)
(* ================================================================== *)

Module Cell.

(** [Series.astype(str)] on an object column: the missing value becomes the
    text ["nan"], which is why line 41 lists it among the shapes to
    replace. *)
Definition astype_str (c : text_cell) : text_cell :=
  match c with
  | Some s => Some s
  | None => Some "nan"
  end.

(** [Series.str.lower()] and the like: a missing value stays missing. *)
Definition str (f : string -> string) (c : text_cell) : text_cell :=
  option_map f c.

(** [Series.replace(olds, new)]. *)
Definition replace (olds : list string) (new : string) (c : text_cell)
  : text_cell :=
  match c with
  | Some s => if existsb (String.eqb s) olds then Some new else Some s
  | None => None
  end.

(** [df.loc[df[col] == old, col] = new]. *)
Definition assign_where_eq (old new : string) (c : text_cell) : text_cell :=
  match c with
  | Some s => if String.eqb s old then Some new else Some s
  | None => None
  end.

(** [Series.fillna(v)]. *)
Definition fillna (v : string) (c : text_cell) : text_cell :=
  match c with
  | Some s => Some s
  | None => Some v
  end.

End Cell.


(* ================================================================== *)
(** * Series: counting, sorting, arg-max, median                       *)
(* ================================================================== *)

(** An index label: an integer, or the text it was renamed to. *)
Inductive label : Type :=
| LInt (z : Z)
| LStr (s : string).

Definition label_eqb (a b : label) : bool :=
  match a, b with
  | LInt x, LInt y => Z.eqb x y
  | LStr x, LStr y => String.eqb x y
  | _, _ => false
  end.

Module Series.

(** A series is the list of its (index label, value) pairs, in index
    order. *)

Fixpoint insert_by {A : Type} (leb : A -> A -> bool) (x : A) (l : list A)
  : list A :=
  match l with
  | [] => [x]
  | y :: l' => if leb x y then x :: l else y :: insert_by leb x l'
  end.

(** A stable sort. *)
Definition sort_by {A : Type} (leb : A -> A -> bool) (l : list A) : list A :=
  fold_right (insert_by leb) [] l.

(** One more occurrence of [k]. *)
Fixpoint tally (k : Z) (s : list (Z * nat)) : list (Z * nat) :=
  match s with
  | [] => [(k, 1%nat)]
  | (k', c) :: s' =>
      if Z.eqb k' k then (k', S c) :: s' else (k', c) :: tally k s'
  end.

(** The distinct values of a column with their numbers of occurrences, in
    order of first appearance. *)
Definition counts (l : list Z) : list (Z * nat) :=
  fold_left (fun s k => tally k s) l [].

(** [Series.value_counts()]: counts, most frequent first. *)
Definition value_counts (l : list Z) : list (Z * nat) :=
  sort_by (fun a b => (snd b <=? snd a)%nat) (counts l).

(** [Series.sort_index()]. *)
Definition sort_index {V : Type} (s : list (Z * V)) : list (Z * V) :=
  sort_by (fun a b => fst a <=? fst b) s.

(** [Series.rename(index=mapping)]: a label the mapping does not have is
    kept. *)
Definition rename_label (mapping : list (Z * string)) (k : Z) : label :=
  match find (fun e => Z.eqb (fst e) k) mapping with
  | Some e => LStr (snd e)
  | None => LInt k
  end.

Definition rename {V : Type} (mapping : list (Z * string))
  (s : list (Z * V)) : list (label * V) :=
  map (fun kv => (rename_label mapping (fst kv), snd kv)) s.

Fixpoint argmax_from {K : Type} (best : K * nat) (s : list (K * nat)) : K :=
  match s with
  | [] => fst best
  | kv :: s' =>
      if (snd best <? snd kv)%nat then argmax_from kv s'
      else argmax_from best s'
  end.

(** [Series.idxmax()]: the label of the first occurrence of the maximum;
    [None] is the ValueError raised on an empty series. *)
Definition idxmax {K : Type} (s : list (K * nat)) : option K :=
  match s with
  | [] => None
  | kv :: s' => Some (argmax_from kv s')
  end.

Definition empty {A : Type} (s : list A) : bool :=
  match s with
  | [] => true
  | _ :: _ => false
  end.

(** [Series.median()]: NaN values are skipped; NaN when nothing is left. *)
Definition median (l : list float) : float :=
  let v := sort_by Float.leb (filter Float.notna l) in
  let n := List.length v in
  if (n =? 0)%nat then NaN
  else if Nat.odd n then nth (n / 2) v NaN
  else Float.half (Float.add (nth (n / 2 - 1) v NaN) (nth (n / 2) v NaN)).

(** A Python dict, in insertion order. *)
Fixpoint dict_set {K V : Type} (eqb : K -> K -> bool) (k : K) (v : V)
  (d : list (K * V)) : list (K * V) :=
  match d with
  | [] => [(k, v)]
  | (k', v') :: d' =>
      if eqb k' k then (k', v) :: d' else (k', v') :: dict_set eqb k v d'
  end.

(** [dict(items)], also [Series.to_dict()]. *)
Definition to_dict {K V : Type} (eqb : K -> K -> bool) (s : list (K * V))
  : list (K * V) :=
  fold_left (fun d kv => dict_set eqb (fst kv) (snd kv) d) s [].

(** The value at label [k], 0 when the series has no such label. *)
Fixpoint get (s : list (Z * nat)) (k : Z) : nat :=
  match s with
  | [] => 0
  | (k', c) :: s' => if Z.eqb k' k then c else get s' k
  end.

Definition total {K : Type} (s : list (K * nat)) : nat :=
  fold_right (fun kv acc => (snd kv + acc)%nat) 0%nat s.

End Series.

(** [k] is the peak of a column: a value of the column that no value occurs
    more often than, and the least of the values that occur as often. *)
Definition is_peak (col : list Z) (k : Z) : Prop :=
  In k col
  /\ (forall k', (count_occ Z.eq_dec col k' <= count_occ Z.eq_dec col k)%nat)
  /\ (forall k', In k' col ->
                 count_occ Z.eq_dec col k' = count_occ Z.eq_dec col k ->
                 k <= k').

(** [str(n)] for an integer. *)
Definition str_of_Z (z : Z) : string := NilZero.string_of_int (Z.to_int z).

(** Python's [round(x, 2)], on the exact value: to the nearest hundredth,
    a tie going to the even one. *)
Definition round_half_even (q : Q) : Z :=
  let f := Qfloor q in
  let r := (q - inject_Z f)%Q in
  match (r ?= 1 # 2)%Q with
  | Lt => f
  | Gt => f + 1
  | Eq => if Z.even f then f else f + 1
  end.

Definition round2 (q : Q) : Q :=
  (inject_Z (round_half_even (q * 100)) / 100)%Q.

(* ================================================================== *)
(** * JSON values                                                      *)
(* ================================================================== *)

#[warnings="-register-all"]
Inductive json : Type :=
| JNull
| JInt (z : Z)
| JNum (x : float)
| JStr (s : string)
| JObj (fields : list (string * json)).

Definition json_field (key : string) (j : json) : option json :=
  match j with
  | JObj fields =>
      option_map snd (find (fun kv => String.eqb (fst kv) key) fields)
  | _ => None
  end.

(* ================================================================== *)
(** * The pipeline                                                     *)
(* ================================================================== *)

Fixpoint filter_map {A B : Type} (f : A -> option B) (l : list A) : list B :=
  match l with
  | [] => []
  | a :: l' =>
      match f a with
      | Some b => b :: filter_map f l'
      | None => filter_map f l'
      end
  end.

Section Pipeline.

(** [pd.to_datetime] and [pd.to_numeric] on the text of one cell; [None]
    when the text does not parse (coerced to NaT / NaN by the callers).
    [pd.to_datetime] is called once on the whole column and may take the
    format of the texts from the column at hand, so [to_datetime_text] is the
    parser of one frame: it gives the cells of that frame their time. *)
Variable to_datetime_text : string -> option Timestamp.
Variable to_numeric_text : string -> option float.

(** [pd.to_datetime(., errors='coerce')] on one cell; [None] is NaT. *)
Definition to_datetime (c : time_cell) : option Timestamp :=
  match c with
  | TText s => to_datetime_text s
  | TNaT => None
  | TStamp t => Some t
  end.

(** [pd.to_numeric(., errors='coerce')] on one cell. *)
Definition to_numeric (c : num_cell) : float :=
  match c with
  | NText s => match to_numeric_text s with Some x => x | None => NaN end
  | NFloat x => x
  end.

(** ** [clean_data] *)

(** Lines 39-42. *)
Definition clean_shape (c : text_cell) : text_cell :=
  let c := Cell.str Text.strip (Cell.str Text.lower (Cell.astype_str c)) in
  let c :=
    Cell.replace ["unknown"; "other"; "nan"; ""; "na"; "unspecified"]
                 "various" c in
  Cell.fillna "various" c.

(** Lines 45-48. *)
Definition clean_country (c : text_cell) : text_cell :=
  let c := Cell.str Text.strip (Cell.str Text.lower (Cell.astype_str c)) in
  let c := Cell.assign_where_eq "gb" "uk" c in
  let c := Cell.assign_where_eq "" "unknown" c in
  Cell.fillna "unknown" c.

(** Lines 52-54. *)
Definition clean_state (c : text_cell) : text_cell :=
  let c := Cell.str Text.strip (Cell.str Text.upper (Cell.astype_str c)) in
  let c := Cell.assign_where_eq "" "UNKNOWN" c in
  Cell.fillna "UNKNOWN" c.

(** What [clean_data] does to one row.  Every statement of [clean_data] is
    an element-wise column map or a boolean-mask filter, so it acts on each
    row on its own; the statements are kept in the order of the source and
    [None] is a row that a filter removed. *)
Definition clean_row (cols : Columns) (r : RawRow) : option Row :=
  (* 11, 14 *)
  t <- to_datetime (raw_datetime r) ;;
  (* 17-19 *)
  let y := ts_year t in
  let m := ts_month t in
  let h := ts_hour t in
  (* 22 *)
  let d := to_numeric (raw_duration_seconds r) in
  (* 26 *)
  check (Float.gtb d (Float.of_Z 0) && Float.ltb d (Float.of_Z 604800)) ;;
  (* 29-30 *)
  let lat := to_numeric (raw_latitude r) in
  let lng := to_numeric (raw_longitude r) in
  (* 34 *)
  check (Float.notna lat && Float.notna lng && Float.notna d) ;;
  (* 35 *)
  check (Float.geb lat (Float.of_Z (-90)) && Float.leb lat (Float.of_Z 90)) ;;
  (* 36 *)
  check (Float.geb lng (Float.of_Z (-180)) && Float.leb lng (Float.of_Z 180)) ;;
  (* 38-54 *)
  let sh := if has_shape cols then clean_shape (raw_shape r)
            else raw_shape r in
  let co := if has_country cols then clean_country (raw_country r)
            else raw_country r in
  let st := if has_state cols then clean_state (raw_state r)
            else raw_state r in
  Some {| datetime := t; year := y; month := m; hour := h;
          duration_seconds := d; latitude := lat; longitude := lng;
          shape := sh; country := co; state := st |}.

Definition clean_data (df : RawFrame) : Frame :=
  {| columns := raw_columns df;
     rows := filter_map (clean_row (raw_columns df)) (raw_rows df) |}.

(** ** [perform_eda] *)

(** Line 73: the mapping from month numbers to their names. *)
Definition month_map : list (Z * string) :=
  [(1, "Jan"); (2, "Feb"); (3, "Mar"); (4, "Apr"); (5, "May"); (6, "Jun");
   (7, "Jul"); (8, "Aug"); (9, "Sep"); (10, "Oct"); (11, "Nov");
   (12, "Dec")].

(** Line 138. *)
Definition is_night (h : Z) : bool :=
  (18 <=? h) && (h <=? 23) || (0 <=? h) && (h <=? 5).

(** [float(m) if pd.notna(m) else None]. *)
Definition float_or_none (m : option float) : option float :=
  match m with
  | Some x => if Float.notna x then Some x else None
  | None => None
  end.

(** Lines 154-157. *)
Definition proportion_over (threshold : Z) (l : list Row) : Q :=
  let count :=
    List.length
      (filter (fun r => Float.gtb (duration_seconds r) (Float.of_Z threshold))
              l) in
  if (0 <? List.length l)%nat
  then (inject_Z (Z.of_nat count) / inject_Z (Z.of_nat (List.length l)))
       * 100
  else 0.

(** The dict [perform_eda] returns.  The ranking entries ([top_countries],
    [top_states_us], [top_shapes], the two most common shapes, the medians
    by shape and the peak-hour shape distribution) are left out: their
    order among equal counts is decided inside pandas, and all that is kept
    of them is that reading a column the frame does not have raises. *)
Record Summary : Type := mkSummary {
  total_sightings : nat;
  median_duration_seconds_overall : option float;
  peak_month : label;
  peak_hour_readable : string;
  peak_hour_numeric : option Z;
  peak_year_of_reports : string;
  median_duration_night_seconds : option float;
  median_duration_day_seconds : option float;
  proportion_over_5_min_percent : Q;
  proportion_over_1_hour_percent : Q;
  sightings_by_year : list (Z * nat);
  sightings_by_month : list (label * nat);
  sightings_by_hour : list (Z * nat)
}.

Definition perform_eda (df : Frame) : option Summary :=
  let l := rows df in
  (* 65 *)
  let median_duration_overall :=
    if Series.empty l then None
    else Some (Series.median (map duration_seconds l)) in
  (* 71 *)
  let sightings_by_year :=
    Series.sort_index (Series.value_counts (map year l)) in
  (* 74 *)
  let sightings_by_month_named :=
    Series.rename month_map
      (Series.sort_index (Series.value_counts (map month l))) in
  (* 76 *)
  peak_month_name <-
    (if Series.empty sightings_by_month_named then Some (LStr "N/A")
     else Series.idxmax sightings_by_month_named) ;;
  (* 79 *)
  let sightings_by_hour :=
    Series.sort_index (Series.value_counts (map hour l)) in
  (* 80 *)
  peak_hour_numeric <-
    (if Series.empty sightings_by_hour then Some None
     else option_map Some (Series.idxmax sightings_by_hour)) ;;
  (* 81 *)
  let peak_hour_readable :=
    match peak_hour_numeric with
    | Some h => str_of_Z h ++ ":00 - " ++ str_of_Z (h + 1) ++ ":00"
    | None => "N/A"
    end in
  (* 84, 87, 90: df['country'], df['state'], df['shape'] *)
  check (has_country (columns df)) ;;
  check (has_state (columns df)) ;;
  check (has_shape (columns df)) ;;
  (* 96 *)
  peak_year_report <-
    (if Series.empty sightings_by_year then Some "N/A"
     else option_map str_of_Z (Series.idxmax sightings_by_year)) ;;
  (* 138-144 *)
  let night_durations :=
    filter Float.notna
      (map duration_seconds (filter (fun r => is_night (hour r)) l)) in
  let day_durations :=
    filter Float.notna
      (map duration_seconds (filter (fun r => negb (is_night (hour r))) l)) in
  let median_duration_night :=
    if Series.empty night_durations then None
    else Some (Series.median night_durations) in
  let median_duration_day :=
    if Series.empty day_durations then None
    else Some (Series.median day_durations) in
  (* 151-157 *)
  let proportion_long_duration := proportion_over 300 l in
  let proportion_very_long_duration := proportion_over 3600 l in
  (* 165-189 *)
  Some {|
    total_sightings := List.length l;
    median_duration_seconds_overall := float_or_none median_duration_overall;
    peak_month := peak_month_name;
    peak_hour_readable := peak_hour_readable;
    peak_hour_numeric := peak_hour_numeric;
    peak_year_of_reports := peak_year_report;
    median_duration_night_seconds := float_or_none median_duration_night;
    median_duration_day_seconds := float_or_none median_duration_day;
    proportion_over_5_min_percent := round2 proportion_long_duration;
    proportion_over_1_hour_percent := round2 proportion_very_long_duration;
    sightings_by_year :=
      Series.to_dict Z.eqb (Series.to_dict Z.eqb sightings_by_year);
    sightings_by_month := Series.to_dict label_eqb sightings_by_month_named;
    sightings_by_hour :=
      Series.to_dict Z.eqb (Series.to_dict Z.eqb sightings_by_hour)
  |}.

(** ** [export_globe_data] *)

(** [DataFrame.sample(n=n, random_state=seed)]. *)
Variable sample : nat -> Z -> list Row -> list Row.

Record GlobePoint : Type := mkGlobePoint {
  lat : float;
  lng : float;
  alt : Q;
  radius : R;
  color : string
}.

(** Line 209. *)
Definition min_duration : Q := 1.
Definition max_duration_cap : Q := 3600 * 24.

(** Lines 213-214.  [np.log] is the real logarithm; it is only applied to
    values that the clip at line 211 has brought into [1, 86400]. *)
Definition log_min_duration : R := ln (Q2R min_duration).
Definition log_max_duration_cap : R := ln (Q2R max_duration_cap).

(** Lines 216-221, on one clipped value. *)
Definition log_norm_duration (normalized_duration : Q) : R :=
  if Rlt_dec log_min_duration log_max_duration_cap
  then ((ln (Q2R normalized_duration) - log_min_duration)
        / (log_max_duration_cap - log_min_duration))%R
  else 0.1%R.

(** Lines 208-226: the [magnitude] column of [globe_df], at one row. *)
Definition magnitude (globe_df : list Row) (row : Row) : R :=
  if negb (Series.empty
             (filter Float.notna (map duration_seconds globe_df)))
  then
    (* 210 *)
    let positive_duration :=
      Float.clip_lower (1 # 1000000) (duration_seconds row) in
    (* 211 *)
    match Float.clip min_duration max_duration_cap positive_duration with
    | Some normalized_duration =>
        (* 223 *)
        (0.03 + log_norm_duration normalized_duration * 0.25)%R
    | None =>
        (* 224 *)
        0.03%R
    end
  else
    (* 226 *)
    0.03%R.

(** Lines 228-236. *)
Definition output_data (globe_df : list Row) : list GlobePoint :=
  map (fun row =>
         {| lat := latitude row;
            lng := longitude row;
            alt := 5 # 1000;
            radius := Rmax 0.01 (magnitude globe_df row);
            color := "rgba(255, 255, 0, 0.7)" |})
      globe_df.

(** The list that [export_globe_data] dumps to the globe file. *)
Definition export_globe_data (df : Frame) : list GlobePoint :=
  (* 193-200 *)
  if Series.empty (rows df) then []
  else
    (* 202-206 *)
    let globe_df :=
      if (MAX_POINTS_ON_GLOBE <? List.length (rows df))%nat
      then sample MAX_POINTS_ON_GLOBE 42 (rows df)
      else rows df in
    output_data globe_df.

(** ** The driver *)

Definition json_of_option_float (m : option float) : json :=
  match m with
  | Some x => JNum x
  | None => JNull
  end.

Definition json_of_label (k : label) : json :=
  match k with
  | LInt z => JInt z
  | LStr s => JStr s
  end.

Definition key_of_label (k : label) : string :=
  match k with
  | LInt z => str_of_Z z
  | LStr s => s
  end.

Definition json_of_counts {K : Type} (key : K -> string)
  (d : list (K * nat)) : json :=
  JObj (map (fun kv => (key (fst kv), JInt (Z.of_nat (snd kv)))) d).

(** [json.dump(eda_summary, ...)], lines 343-353. *)
Definition json_of_summary (s : Summary) : json :=
  JObj
    [("total_sightings", JInt (Z.of_nat (total_sightings s)));
     ("median_duration_seconds_overall",
      json_of_option_float (median_duration_seconds_overall s));
     ("peak_month", json_of_label (peak_month s));
     ("peak_hour_readable", JStr (peak_hour_readable s));
     ("peak_hour_numeric",
      match peak_hour_numeric s with Some h => JInt h | None => JNull end);
     ("peak_year_of_reports", JStr (peak_year_of_reports s));
     ("median_duration_night_seconds",
      json_of_option_float (median_duration_night_seconds s));
     ("median_duration_day_seconds",
      json_of_option_float (median_duration_day_seconds s));
     ("proportion_over_5_min_percent",
      JNum (Fin (proportion_over_5_min_percent s)));
     ("proportion_over_1_hour_percent",
      JNum (Fin (proportion_over_1_hour_percent s)));
     ("sightings_by_year", json_of_counts str_of_Z (sightings_by_year s));
     ("sightings_by_month",
      json_of_counts key_of_label (sightings_by_month s));
     ("sightings_by_hour", json_of_counts str_of_Z (sightings_by_hour s))].

(** Lines 310-354, from the loaded frame on: the summary artifact and the
    globe artifact that the run writes; [None] when it raises. *)
Definition main (raw_df : RawFrame) : option (json * list GlobePoint) :=
  (* 312 *)
  let df := clean_data raw_df in
  (* 316 *)
  if Series.empty (rows df)
  then
    (* 328-329 *)
    Some (JObj [], export_globe_data df)
  else
    (* 334 *)
    eda_summary <- perform_eda df ;;
    (* 340-353 *)
    Some (json_of_summary eda_summary, export_globe_data df).

End Pipeline.

(* ================================================================== *)
(** * The driver before cleaning: the column names                     *)
(* ================================================================== *)

(** Lines 267-308 work on the column labels of the loaded frame only; a
    header is the list of these labels, in column order. *)
Module Header.

(** A character that the pattern [[^A-Za-z0-9_]+] of line 268 leaves in
    place. *)
Definition is_word_char (c : ascii) : bool :=
  let n := nat_of_ascii c in
  ((48 <=? n) && (n <=? 57) || (65 <=? n) && (n <=? 90)
   || (n =? 95) || (97 <=? n) && (n <=? 122))%nat.

(** [str.replace('[^A-Za-z0-9_]+', '', regex=True)]. *)
Definition remove_non_word (s : string) : string :=
  string_of_list_ascii (filter is_word_char (list_ascii_of_string s)).

(** Line 268, on one label. *)
Definition standardize (name : string) : string :=
  remove_non_word (Text.strip (Text.lower name)).

Definition standardize_columns (cols : list string) : list string :=
  map standardize cols.

(** [name in df.columns]. *)
Definition contains (name : string) (cols : list string) : bool :=
  existsb (String.eqb name) cols.

(** [df.rename(columns={old: new})]: every column labelled [old]. *)
Definition rename_column (old new : string) (cols : list string)
  : list string :=
  map (fun c => if String.eqb c old then new else c) cols.

(** Lines 271-275, in insertion order. *)
Definition rename_map : list (string * string) :=
  [("durationseconds", "duration_seconds");
   ("durationhoursmin", "duration_hours_min");
   ("durationseconds_1", "duration_seconds")].

(** Lines 277-286. *)
Definition rename_columns (cols : list string) : list string :=
  (* 277-280 *)
  let cols :=
    if negb (contains "durationseconds" cols)
       && contains "durationseconds_1" cols
    then rename_column "durationseconds_1" "duration_seconds" cols
    else if contains "durationseconds" cols
    then rename_column "durationseconds" "duration_seconds" cols
    else cols in
  (* 284-286 *)
  fold_left
    (fun cols entry =>
       if contains (fst entry) cols && negb (contains (snd entry) cols)
       then rename_column (fst entry) (snd entry) cols
       else cols)
    rename_map cols.

(** Lines 298-308: [false] when the run exits for a missing column. *)
Definition required_columns_present (cols : list string) : bool :=
  contains "duration_seconds" cols
  && Series.empty
       (filter (fun col => negb (contains col cols))
               ["datetime"; "latitude"; "longitude"]).

(** Lines 267-308 and the column tests of lines 38, 44 and 51: the optional
    columns of the frame that goes on to [clean_data]; [None] when the run
    exits before cleaning. *)
Definition load_columns (header : list string) : option Columns :=
  let cols := rename_columns (standardize_columns header) in
  if required_columns_present cols
  then Some {| has_shape := contains "shape" cols;
               has_country := contains "country" cols;
               has_state := contains "state" cols |}
  else None.

End Header.

(* ================================================================== *)
(** * The rankings of [perform_eda]                                    *)
(* ================================================================== *)

(** The entries of the summary that [Summary] leaves out, on their own:
    [top_countries], [top_states_us], [top_shapes], the two most common
    shapes and the median durations by shape (lines 84-93 and 101-115).
    Where pandas sorts counts, the order it gives to equal counts is not
    fixed here: [Series.sort_values] and the arrangement of
    [Series.nlargest] are parameters, of which the theorems only assume that
    they put a series in descending order of its values.  The shape
    distribution of the peak hour (lines 117-133), which sorts and formats
    floating-point fractions, is not modelled. *)

Module Ranking.

(** One more occurrence of the text [k]. *)
Fixpoint tally (k : string) (s : list (string * nat)) : list (string * nat) :=
  match s with
  | [] => [(k, 1%nat)]
  | (k', c) :: s' =>
      if String.eqb k' k then (k', S c) :: s' else (k', c) :: tally k s'
  end.

(** The distinct texts of a column with their numbers of occurrences, in
    order of first appearance. *)
Definition counts (l : list string) : list (string * nat) :=
  fold_left (fun s k => tally k s) l [].

(** The value at label [k], 0 when the series has no such label. *)
Fixpoint get (s : list (string * nat)) (k : string) : nat :=
  match s with
  | [] => 0
  | (k', c) :: s' => if String.eqb k' k then c else get s' k
  end.

(** The texts of a column, its missing values skipped. *)
Fixpoint present (l : list text_cell) : list string :=
  match l with
  | [] => []
  | Some s :: l' => s :: present l'
  | None :: l' => present l'
  end.

(** [Series.notna()], [Series == s] and [Series != s] on one cell. *)
Definition notna (c : text_cell) : bool :=
  match c with
  | Some _ => true
  | None => false
  end.

Definition eq_text (c : text_cell) (s : string) : bool :=
  match c with
  | Some t => String.eqb t s
  | None => false
  end.

Definition ne_text (c : text_cell) (s : string) : bool :=
  negb (eq_text c s).

(** An arrangement of a series in descending order of its values. *)
Definition descending
  (arrange : list (string * nat) -> list (string * nat)) : Prop :=
  forall s,
    Permutation (arrange s) s
    /\ StronglySorted (fun a b => (snd b <= snd a)%nat) (arrange s).

(** [top] is a ranking of the [n] most frequent texts of [col]: at most [n]
    distinct texts of [col], each with its number of occurrences, the most
    frequent first; a text of [col] is left out only when the ranking is
    full, and then it occurs no more often than any text listed. *)
Definition is_top (n : nat) (col : list string) (top : list (string * nat))
  : Prop :=
  (List.length top <= n)%nat
  /\ NoDup (map fst top)
  /\ (forall k c, In (k, c) top ->
                  In k col /\ c = count_occ string_dec col k)
  /\ StronglySorted (fun a b => (snd b <= snd a)%nat) top
  /\ (forall k, In k col -> ~ In k (map fst top) ->
                List.length top = n
                /\ forall e, In e top ->
                             (count_occ string_dec col k <= snd e)%nat).

(** [round(x, 2)] on a float64. *)
Definition round_float (x : float) : float :=
  match x with
  | Fin q => Fin (round2 q)
  | _ => x
  end.

End Ranking.

Section Rankings.

(** [Series.sort_values(ascending=False)], which [value_counts] ends with,
    and the descending arrangement of which [nlargest] takes the head. *)
Variable sort_values : list (string * nat) -> list (string * nat).
Variable nlargest_order : list (string * nat) -> list (string * nat).

(** [Series.value_counts()] on a text column. *)
Definition value_counts_text (col : list text_cell) : list (string * nat) :=
  sort_values (Ranking.counts (Ranking.present col)).

(** [Series.nlargest(n)]. *)
Definition nlargest (n : nat) (s : list (string * nat))
  : list (string * nat) :=
  firstn n (nlargest_order s).

(** Line 84. *)
Definition valid_countries (df : Frame) : list text_cell :=
  map country
      (filter (fun r => Ranking.notna (country r)
                        && Ranking.ne_text (country r) "unknown")
              (rows df)).

(** Line 85. *)
Definition top_countries (df : Frame) : option (list (string * nat)) :=
  check (has_country (columns df)) ;;
  Some (if Series.empty (valid_countries df) then []
        else nlargest 5 (value_counts_text (valid_countries df))).

(** Line 87. *)
Definition us_sightings (df : Frame) : list Row :=
  filter (fun r => Ranking.eq_text (country r) "us"
                   && Ranking.notna (state r)
                   && Ranking.ne_text (state r) "UNKNOWN")
         (rows df).

(** Line 88. *)
Definition top_states_us (df : Frame) : option (list (string * nat)) :=
  check (has_country (columns df)) ;;
  check (has_state (columns df)) ;;
  Some (if Series.empty (us_sightings df) then []
        else nlargest 5 (value_counts_text (map state (us_sightings df)))).

(** Line 90. *)
Definition valid_shapes_df (df : Frame) : list Row :=
  filter (fun r => Ranking.notna (shape r)
                   && Ranking.ne_text (shape r) "various")
         (rows df).

(** Line 91. *)
Definition top_shapes_series (df : Frame) : option (list (string * nat)) :=
  check (has_shape (columns df)) ;;
  Some (if Series.empty (valid_shapes_df df) then []
        else nlargest 10 (value_counts_text (map shape (valid_shapes_df df)))).

(** Lines 92-93. *)
Definition most_common_shape (df : Frame) : option string :=
  top <- top_shapes_series df ;;
  Some (match top with
        | kv :: _ => fst kv
        | [] => "N/A"
        end).

Definition second_most_common_shape (df : Frame) : option string :=
  top <- top_shapes_series df ;;
  Some (match top with
        | _ :: kv :: _ => fst kv
        | _ => "N/A"
        end).

(** Lines 107-113, for one shape. *)
Definition median_duration_of_shape (df : Frame) (s : string)
  : option float :=
  let shape_data :=
    filter (fun r => Ranking.eq_text (shape r) s) (valid_shapes_df df) in
  if negb (Series.empty shape_data)
     && negb (Series.empty
                (filter Float.notna (map duration_seconds shape_data)))
  then
    let median_dur := Series.median (map duration_seconds shape_data) in
    if Float.notna median_dur then Some (Ranking.round_float median_dur)
    else None
  else None.

(** Lines 102-115: the dict [durations_by_shape]. *)
Definition median_durations_by_top_shapes (df : Frame)
  : option (list (string * option float)) :=
  top <- top_shapes_series df ;;
  Some (fold_left
          (fun d s =>
             Series.dict_set String.eqb s (median_duration_of_shape df s) d)
          (map fst (firstn 5 top)) []).

End Rankings.

(* ================================================================== *)
(** * One choice of the parameters                                     *)
(* ================================================================== *)

(** Simple parsers and a simple sampler, to run the pipeline on concrete
    frames: integers in decimal notation, time stamps written
    [YYYY-MM-DD HH:MM:SS], and the sample that takes the first [n] rows. *)
Module Instances.

Definition digits (s : string) : option Z :=
  match s with
  | EmptyString => None
  | _ => option_map Z.of_uint (NilEmpty.uint_of_string s)
  end.

Definition to_numeric_text (s : string) : option float :=
  match s with
  | String "-" s' => option_map (fun z => Float.of_Z (- z)) (digits s')
  | _ => option_map Float.of_Z (digits s)
  end.

Definition to_datetime_text (s : string) : option Timestamp :=
  if negb (String.length s =? 19)%nat then None
  else if negb (String.eqb (substring 4 1 s) "-"
                && String.eqb (substring 7 1 s) "-"
                && String.eqb (substring 10 1 s) " "
                && String.eqb (substring 13 1 s) ":"
                && String.eqb (substring 16 1 s) ":") then None
  else
    y <- digits (substring 0 4 s) ;;
    mo <- digits (substring 5 2 s) ;;
    d <- digits (substring 8 2 s) ;;
    h <- digits (substring 11 2 s) ;;
    mi <- digits (substring 14 2 s) ;;
    se <- digits (substring 17 2 s) ;;
    check ((1 <=? mo) && (mo <=? 12) && (1 <=? d) && (d <=? 31)
           && (h <=? 23) && (mi <=? 59) && (se <=? 59)) ;;
    Some (mkTimestamp y mo d h mi se).

Definition sample (n : nat) (random_state : Z) (l : list Row) : list Row :=
  firstn n l.

Definition all_columns : Columns := mkColumns true true true.

(** A sighting as the CSV loader yields it. *)
Definition sighting (when duration : string) (shape country state : text_cell)
  : RawRow :=
  mkRawRow (TText when) (NText duration) (NFloat (Fin (2972 # 100)))
           (NFloat (Fin (- (9794 # 100)))) shape country state.

(** The same, at a given position. *)
Definition sighting_at (when duration : string) (latitude longitude : Q)
  : RawRow :=
  mkRawRow (TText when) (NText duration) (NFloat (Fin latitude))
           (NFloat (Fin longitude)) (Some "light") (Some "us") (Some "tx").

(** A small input: a sighting without country and state, one of duration 0,
    one whose shape reads "NaN", one at the north pole on the date line, and
    one whose time does not parse. *)
Definition no_country : RawRow :=
  sighting "1949-10-10 20:30:00" "2700" (Some " Cylinder ") None None.

Definition zero_duration : RawRow :=
  sighting "1949-10-10 21:00:00" "0" (Some "disk") (Some "us") (Some "tx").

Definition nan_shape : RawRow :=
  sighting "1950-11-10 21:30:00" "300" (Some "NaN") (Some " GB") (Some "").

Definition north_pole : RawRow :=
  sighting_at "1950-06-01 21:15:00" "60" 90 (-180).

Definition bad_time : RawRow :=
  sighting "10/10/1949 20:30" "2700" (Some "circle") (Some "us") (Some "ca").

Definition small_input : RawFrame :=
  mkRawFrame all_columns
    [no_country; zero_duration; nan_shape; north_pole; bad_time].

Definition no_input : RawFrame := mkRawFrame all_columns [].

Definition one_row : Row :=
  {| datetime := mkTimestamp 1949 10 10 20 30 0;
     year := 1949; month := 10; hour := 20;
     duration_seconds := Fin 2700;
     latitude := Fin (2972 # 100); longitude := Fin (- (9794 # 100));
     shape := Some "cylinder"; country := Some "us"; state := Some "TX" |}.

(** The same record, lasting [q] seconds. *)
Definition row_lasting (q : Q) : Row :=
  {| datetime := mkTimestamp 1949 10 10 20 30 0;
     year := 1949; month := 10; hour := 20;
     duration_seconds := Fin q;
     latitude := Fin (2972 # 100); longitude := Fin (- (9794 # 100));
     shape := Some "cylinder"; country := Some "us"; state := Some "TX" |}.

(** The small input without its state column. *)
Definition no_state_column : RawFrame :=
  mkRawFrame (mkColumns true true false) (raw_rows small_input).

(** Counts in descending order, equal counts in their order of
    appearance. *)
Definition by_count_descending (s : list (string * nat))
  : list (string * nat) :=
  Series.sort_by (fun a b => (snd b <=? snd a)%nat) s.

(** A frame of [n] records. *)
Definition frame_of_size (n : nat) : Frame :=
  mkFrame all_columns (repeat one_row n).

End Instances.

(* ================================================================== *)
(** * Facts about text                                                 *)
(* ================================================================== *)

Module TextFacts.
Import Text.

Lemma is_space_lower_char (c : ascii) : is_space (lower_char c) = is_space c.
Proof. destruct c as [[] [] [] [] [] [] [] []]; reflexivity. Qed.

Lemma is_space_upper_char (c : ascii) : is_space (upper_char c) = is_space c.
Proof. destruct c as [[] [] [] [] [] [] [] []]; reflexivity. Qed.

Lemma lower_char_idem (c : ascii) : lower_char (lower_char c) = lower_char c.
Proof. destruct c as [[] [] [] [] [] [] [] []]; reflexivity. Qed.

Lemma upper_char_idem (c : ascii) : upper_char (upper_char c) = upper_char c.
Proof. destruct c as [[] [] [] [] [] [] [] []]; reflexivity. Qed.

Section Strip.

(** A character map that keeps white space white and the rest not. *)
Variable f : ascii -> ascii.
Hypothesis f_space : forall c, is_space (f c) = is_space c.

Lemma lstrip_chars_map (l : list ascii) :
  lstrip_chars (map f l) = map f (lstrip_chars l).
Proof.
  induction l as [|c l IH]; simpl; [reflexivity|].
  rewrite f_space. destruct (is_space c); [exact IH | reflexivity].
Qed.

Lemma strip_chars_map (l : list ascii) :
  strip_chars (map f l) = map f (strip_chars l).
Proof.
  unfold strip_chars, rstrip_chars.
  now rewrite lstrip_chars_map, <- map_rev, lstrip_chars_map, map_rev.
Qed.

End Strip.

Lemma lstrip_chars_idem (l : list ascii) :
  lstrip_chars (lstrip_chars l) = lstrip_chars l.
Proof.
  induction l as [|c l IH]; simpl; [reflexivity|].
  destruct (is_space c) eqn:E; [exact IH|]. simpl. now rewrite E.
Qed.

Lemma lstrip_chars_snoc (l : list ascii) (c : ascii) :
  is_space c = false ->
  lstrip_chars (l ++ [c])%list = (lstrip_chars l ++ [c])%list.
Proof.
  intros Hc. induction l as [|d l IH]; simpl.
  - now rewrite Hc.
  - destruct (is_space d); [exact IH | reflexivity].
Qed.

(** Stripping on the right leaves a stripped left end alone. *)
Lemma lstrip_rstrip_fixed (l : list ascii) :
  lstrip_chars l = l -> lstrip_chars (rstrip_chars l) = rstrip_chars l.
Proof.
  destruct l as [|c l]; [reflexivity|].
  simpl. destruct (is_space c) eqn:E.
  - intros H. exfalso.
    assert (Hlen : (List.length (lstrip_chars l) <= List.length l)%nat).
    { clear. induction l as [|d l IH]; simpl; [lia|].
      destruct (is_space d); simpl; lia. }
    rewrite H in Hlen. simpl in Hlen. lia.
  - intros _. unfold rstrip_chars.
    change (rev (c :: l)) with (rev l ++ [c])%list.
    rewrite lstrip_chars_snoc by exact E.
    rewrite rev_app_distr. simpl. now rewrite E.
Qed.

Lemma rstrip_chars_idem (l : list ascii) :
  rstrip_chars (rstrip_chars l) = rstrip_chars l.
Proof.
  unfold rstrip_chars. now rewrite rev_involutive, lstrip_chars_idem.
Qed.

Lemma strip_chars_idem (l : list ascii) :
  strip_chars (strip_chars l) = strip_chars l.
Proof.
  unfold strip_chars.
  rewrite (lstrip_rstrip_fixed (lstrip_chars l)) by apply lstrip_chars_idem.
  apply rstrip_chars_idem.
Qed.

Lemma map_idem {A : Type} (f : A -> A) (l : list A) :
  (forall a, f (f a) = f a) -> map f (map f l) = map f l.
Proof.
  intros H. rewrite map_map. apply map_ext. exact H.
Qed.

(** Lower-casing and stripping an already lower-cased, stripped text
    changes nothing; the same for upper case. *)
Lemma strip_lower_idem (s : string) :
  strip (lower (strip (lower s))) = strip (lower s).
Proof.
  unfold strip, lower.
  rewrite !list_ascii_of_string_of_list_ascii.
  rewrite !(strip_chars_map lower_char is_space_lower_char).
  rewrite map_idem by apply lower_char_idem.
  now rewrite strip_chars_idem.
Qed.

Lemma strip_upper_idem (s : string) :
  strip (upper (strip (upper s))) = strip (upper s).
Proof.
  unfold strip, upper.
  rewrite !list_ascii_of_string_of_list_ascii.
  rewrite !(strip_chars_map upper_char is_space_upper_char).
  rewrite map_idem by apply upper_char_idem.
  now rewrite strip_chars_idem.
Qed.

End TextFacts.

(* ================================================================== *)
(** * Facts about float64 comparisons                                  *)
(* ================================================================== *)

Module FloatFacts.
Import Float.

Lemma Qltb_iff (a b : Q) : Qltb a b = true <-> (a < b)%Q.
Proof.
  unfold Qltb. rewrite negb_true_iff. split.
  - intros H. apply Qnot_le_lt. intros Hle.
    apply Qle_bool_iff in Hle. congruence.
  - intros H. destruct (Qle_bool b a) eqn:E; [|reflexivity].
    apply Qle_bool_iff in E. exfalso. exact (Qlt_not_le _ _ H E).
Qed.

Lemma ltb_Fin (x y : float) :
  ltb x y = true ->
  (exists a, x = Fin a /\ ((exists b, y = Fin b /\ (a < b)%Q) \/ y = PosInf))
  \/ x = NegInf.
Proof.
  destruct x as [| | |a], y as [| | |b]; simpl; try discriminate; auto.
  - intros _. left. exists a. auto.
  - intros H. apply Qltb_iff in H. left. exists a. split; [reflexivity|].
    left. exists b. auto.
Qed.

(** [lo < x < hi] holds exactly for the finite values strictly between. *)
Lemma open_range (x : float) (lo hi : Z) :
  gtb x (of_Z lo) && ltb x (of_Z hi) = true <->
  exists q, x = Fin q /\ (inject_Z lo < q)%Q /\ (q < inject_Z hi)%Q.
Proof.
  rewrite andb_true_iff. unfold gtb, of_Z. split.
  - destruct x as [| | |q]; simpl; intros [H1 H2]; try discriminate.
    exists q. rewrite <- !Qltb_iff. auto.
  - intros (q & -> & H1 & H2). simpl. now rewrite !Qltb_iff.
Qed.

(** [lo <= x <= hi] holds exactly for the finite values between, ends
    included. *)
Lemma closed_range (x : float) (lo hi : Z) :
  geb x (of_Z lo) && leb x (of_Z hi) = true <->
  exists q, x = Fin q /\ (inject_Z lo <= q)%Q /\ (q <= inject_Z hi)%Q.
Proof.
  rewrite andb_true_iff. unfold geb, of_Z. split.
  - destruct x as [| | |q]; simpl; intros [H1 H2]; try discriminate.
    exists q. rewrite <- !Qle_bool_iff. auto.
  - intros (q & -> & H1 & H2). simpl. now rewrite !Qle_bool_iff.
Qed.

Lemma leb_not_gtb (x y : float) : leb x y = true -> gtb x y = false.
Proof.
  unfold gtb. destruct x as [| | |a], y as [| | |b]; simpl;
    try discriminate; try reflexivity.
  intros H. apply Qle_bool_iff in H. unfold Qltb. now rewrite (proj2 (Qle_bool_iff a b) H).
Qed.

Lemma geb_not_ltb (x y : float) : geb x y = true -> ltb x y = false.
Proof. unfold geb. intros H. exact (leb_not_gtb y x H). Qed.

End FloatFacts.

(* ================================================================== *)
(** * Facts about [clean_data]                                         *)
(* ================================================================== *)

Lemma bind_Some {A B : Type} (m : option A) (k : A -> option B) (b : B) :
  bind m k = Some b <-> exists a, m = Some a /\ k a = Some b.
Proof.
  destruct m as [a|]; simpl; split.
  - eauto.
  - now intros (a' & [= <-] & H).
  - discriminate.
  - now intros (a' & [=] & _).
Qed.

Lemma check_Some {B : Type} (c : bool) (k : option B) (b : B) :
  (check c ;; k) = Some b <-> c = true /\ k = Some b.
Proof.
  destruct c; simpl; split; try tauto; try discriminate.
  now intros [[=] _].
Qed.

Lemma filter_map_app {A B : Type} (f : A -> option B) (l1 l2 : list A) :
  filter_map f (l1 ++ l2)%list = (filter_map f l1 ++ filter_map f l2)%list.
Proof.
  induction l1 as [|a l1 IH]; simpl; [reflexivity|].
  destruct (f a); simpl; now rewrite IH.
Qed.

Lemma in_filter_map {A B : Type} (f : A -> option B) (l : list A) (b : B) :
  In b (filter_map f l) <-> exists a, In a l /\ f a = Some b.
Proof.
  induction l as [|a l IH]; simpl.
  - split; [tauto | intros (a & [] & _)].
  - destruct (f a) as [b'|] eqn:E; simpl; rewrite IH; split.
    + intros [<- | (a' & Ha & Hf)]; eauto.
    + intros (a' & [<- | Ha] & Hf); [left; congruence | right; eauto].
    + intros (a' & Ha & Hf); eauto.
    + intros (a' & [<- | Ha] & Hf); [congruence | eauto].
Qed.

Lemma filter_map_all {A B : Type} (f : A -> option B) (g : B -> A)
  (l : list B) :
  (forall b, In b l -> f (g b) = Some b) -> filter_map f (map g l) = l.
Proof.
  induction l as [|b l IH]; simpl; intros H; [reflexivity|].
  rewrite (H b) by auto. f_equal. apply IH. auto.
Qed.

Lemma filter_map_length_le {A B : Type} (f : A -> option B) (l : list A) :
  (List.length (filter_map f l) <= List.length l)%nat.
Proof.
  induction l as [|a l IH]; simpl; [lia|].
  destruct (f a); simpl; lia.
Qed.

(** A row on which [f] gives nothing makes the result strictly shorter. *)
Lemma filter_map_length_lt {A B : Type} (f : A -> option B) (l : list A)
  (a : A) :
  In a l -> f a = None ->
  (List.length (filter_map f l) < List.length l)%nat.
Proof.
  induction l as [|a' l IH]; simpl; [tauto|].
  intros [-> | Hin] Hf.
  - rewrite Hf. pose proof (filter_map_length_le f l). lia.
  - specialize (IH Hin Hf). destruct (f a'); simpl; lia.
Qed.

Section CleanFacts.

Variable to_datetime_text : string -> option Timestamp.
Variable to_numeric_text : string -> option float.

Local Notation to_datetime' := (to_datetime to_datetime_text).
Local Notation to_numeric' := (to_numeric to_numeric_text).
Local Notation clean_row' := (clean_row to_datetime_text to_numeric_text).
Local Notation clean_data' := (clean_data to_datetime_text to_numeric_text).

(** What a kept row is made of. *)
Lemma clean_row_inv (cols : Columns) (r : RawRow) (row : Row) :
  clean_row' cols r = Some row ->
  to_datetime' (raw_datetime r) = Some (datetime row)
  /\ year row = ts_year (datetime row)
  /\ month row = ts_month (datetime row)
  /\ hour row = ts_hour (datetime row)
  /\ duration_seconds row = to_numeric' (raw_duration_seconds r)
  /\ latitude row = to_numeric' (raw_latitude r)
  /\ longitude row = to_numeric' (raw_longitude r)
  /\ Float.gtb (duration_seconds row) (Float.of_Z 0)
     && Float.ltb (duration_seconds row) (Float.of_Z 604800) = true
  /\ Float.geb (latitude row) (Float.of_Z (-90))
     && Float.leb (latitude row) (Float.of_Z 90) = true
  /\ Float.geb (longitude row) (Float.of_Z (-180))
     && Float.leb (longitude row) (Float.of_Z 180) = true
  /\ shape row = (if has_shape cols then clean_shape (raw_shape r)
                  else raw_shape r)
  /\ country row = (if has_country cols then clean_country (raw_country r)
                    else raw_country r)
  /\ state row = (if has_state cols then clean_state (raw_state r)
                  else raw_state r).
Proof.
  unfold clean_row. intros H.
  apply bind_Some in H. destruct H as (t & Ht & H).
  apply check_Some in H. destruct H as (Hd & H).
  apply check_Some in H. destruct H as (_ & H).
  apply check_Some in H. destruct H as (Hlat & H).
  apply check_Some in H. destruct H as (Hlng & H).
  injection H as <-. simpl. repeat split; assumption.
Qed.

(** Which rows are kept. *)
Lemma clean_row_kept (cols : Columns) (r : RawRow) :
  clean_row' cols r <> None <->
  to_datetime' (raw_datetime r) <> None
  /\ Float.gtb (to_numeric' (raw_duration_seconds r)) (Float.of_Z 0)
     && Float.ltb (to_numeric' (raw_duration_seconds r)) (Float.of_Z 604800)
     = true
  /\ Float.geb (to_numeric' (raw_latitude r)) (Float.of_Z (-90))
     && Float.leb (to_numeric' (raw_latitude r)) (Float.of_Z 90) = true
  /\ Float.geb (to_numeric' (raw_longitude r)) (Float.of_Z (-180))
     && Float.leb (to_numeric' (raw_longitude r)) (Float.of_Z 180) = true.
Proof.
  split.
  - destruct (clean_row' cols r) as [row|] eqn:E; [intros _ | congruence].
    apply clean_row_inv in E.
    destruct E as (Ht & _ & _ & _ & Hd & Hla & Hlo & H1 & H2 & H3 & _).
    rewrite <- Hd, <- Hla, <- Hlo, Ht. repeat split; congruence.
  - intros (Ht & Hd & Hla & Hlo).
    destruct (to_datetime' (raw_datetime r)) as [t|] eqn:Et; [|congruence].
    unfold clean_row. rewrite Et. cbn [bind].
    pose proof Hd as Hd'. pose proof Hla as Hla'. pose proof Hlo as Hlo'.
    apply FloatFacts.open_range in Hd'. destruct Hd' as (d & Ed & _).
    apply FloatFacts.closed_range in Hla'. destruct Hla' as (la & Ela & _).
    apply FloatFacts.closed_range in Hlo'. destruct Hlo' as (lo & Elo & _).
    rewrite Hd, Hla, Hlo, Ed, Ela, Elo. simpl. discriminate.
Qed.

Lemma clean_data_rows (raw : RawFrame) (row : Row) :
  In row (rows (clean_data' raw)) <->
  exists r, In r (raw_rows raw) /\ clean_row' (raw_columns raw) r = Some row.
Proof. apply in_filter_map. Qed.


(** The three text normalisations on a cell that holds text. *)
Lemma clean_shape_Some (s : string) :
  clean_shape (Some s) =
  if existsb (String.eqb (Text.strip (Text.lower s)))
       ["unknown"; "other"; "nan"; ""; "na"; "unspecified"]
  then Some "various"
  else Some (Text.strip (Text.lower s)).
Proof.
  unfold clean_shape, Cell.astype_str, Cell.str, Cell.replace, Cell.fillna,
    option_map.
  now destruct (existsb _ _).
Qed.

Lemma clean_country_Some (s : string) :
  clean_country (Some s) =
  if String.eqb (Text.strip (Text.lower s)) "gb" then Some "uk"
  else if String.eqb (Text.strip (Text.lower s)) "" then Some "unknown"
  else Some (Text.strip (Text.lower s)).
Proof.
  unfold clean_country, Cell.astype_str, Cell.str, Cell.assign_where_eq,
    Cell.fillna, option_map.
  destruct (String.eqb (Text.strip (Text.lower s)) "gb"); [reflexivity|].
  now destruct (String.eqb (Text.strip (Text.lower s)) "").
Qed.

Lemma clean_state_Some (s : string) :
  clean_state (Some s) =
  if String.eqb (Text.strip (Text.upper s)) "" then Some "UNKNOWN"
  else Some (Text.strip (Text.upper s)).
Proof.
  unfold clean_state, Cell.astype_str, Cell.str, Cell.assign_where_eq,
    Cell.fillna, option_map.
  now destruct (String.eqb (Text.strip (Text.upper s)) "").
Qed.

(** Normalising a text cell twice is the same as normalising it once. *)
Lemma clean_shape_idem (c : text_cell) :
  clean_shape (clean_shape c) = clean_shape c.
Proof.
  destruct c as [s|]; [|reflexivity].
  rewrite (clean_shape_Some s).
  destruct (existsb _ _) eqn:E; [reflexivity|].
  now rewrite clean_shape_Some, TextFacts.strip_lower_idem, E.
Qed.

Lemma clean_country_idem (c : text_cell) :
  clean_country (clean_country c) = clean_country c.
Proof.
  destruct c as [s|]; [|reflexivity].
  rewrite (clean_country_Some s).
  destruct (String.eqb (Text.strip (Text.lower s)) "gb") eqn:E1;
    [reflexivity|].
  destruct (String.eqb (Text.strip (Text.lower s)) "") eqn:E2;
    [reflexivity|].
  now rewrite clean_country_Some, TextFacts.strip_lower_idem, E1, E2.
Qed.

Lemma clean_state_idem (c : text_cell) :
  clean_state (clean_state c) = clean_state c.
Proof.
  destruct c as [s|]; [|reflexivity].
  rewrite (clean_state_Some s).
  destruct (String.eqb (Text.strip (Text.upper s)) "") eqn:E;
    [reflexivity|].
  now rewrite clean_state_Some, TextFacts.strip_upper_idem, E.
Qed.

(** A kept row, read back as an input row, is kept as it is. *)
Lemma clean_row_as_raw (cols : Columns) (r : RawRow) (row : Row) :
  clean_row' cols r = Some row -> clean_row' cols (as_raw_row row) = Some row.
Proof.
  intros H. apply clean_row_inv in H.
  destruct H as (_ & Hy & Hm & Hh & _ & _ & _ & Hd & Hla & Hlo & Hs & Hc & Ht).
  pose proof Hd as Hd'. pose proof Hla as Hla'. pose proof Hlo as Hlo'.
  apply FloatFacts.open_range in Hd'. destruct Hd' as (d & Ed & _).
  apply FloatFacts.closed_range in Hla'. destruct Hla' as (la & Ela & _).
  apply FloatFacts.closed_range in Hlo'. destruct Hlo' as (lo & Elo & _).
  unfold clean_row. cbn [as_raw_row raw_datetime raw_duration_seconds
    raw_latitude raw_longitude raw_shape raw_country raw_state
    to_datetime to_numeric bind].
  assert (Hn : Float.notna (latitude row) && Float.notna (longitude row)
               && Float.notna (duration_seconds row) = true)
    by (rewrite Ela, Elo, Ed; reflexivity).
  rewrite Hd, Hn, Hla, Hlo. cbn [bind guard]. f_equal.
  destruct row as [t y m h du lat lng sh co st]; simpl in *.
  rewrite <- Hy, <- Hm, <- Hh. f_equal.
  - rewrite Hs. destruct (has_shape cols); [apply clean_shape_idem | reflexivity].
  - rewrite Hc. destruct (has_country cols); [apply clean_country_idem | reflexivity].
  - rewrite Ht. destruct (has_state cols); [apply clean_state_idem | reflexivity].
Qed.

(** C4.  Within a raw frame, a record whose parsed duration is at most 0 or
    at least 604800 (0 and 604800 included) is absent from the clean set: it
    yields no clean record, no record of the clean set carries its duration,
    and the clean set has fewer records than the frame.  Every record of the
    clean set has a finite duration strictly between 0 and 604800. *)
Theorem clean_data_duration_bounds :
  (forall (raw : RawFrame) (r : RawRow),
      In r (raw_rows raw) ->
      Float.leb (to_numeric' (raw_duration_seconds r)) (Float.of_Z 0) = true
      \/ Float.geb (to_numeric' (raw_duration_seconds r)) (Float.of_Z 604800)
         = true ->
      clean_row' (raw_columns raw) r = None
      /\ (forall row : Row,
            In row (rows (clean_data' raw)) ->
            duration_seconds row <> to_numeric' (raw_duration_seconds r))
      /\ (List.length (rows (clean_data' raw))
          < List.length (raw_rows raw))%nat)
  /\ (forall (raw : RawFrame) (row : Row),
        In row (rows (clean_data' raw)) ->
        exists q, duration_seconds row = Fin q
                  /\ (0 < q)%Q /\ (q < 604800)%Q).
Proof.
  assert (Hrange : forall cols r row,
             clean_row' cols r = Some row ->
             Float.gtb (duration_seconds row) (Float.of_Z 0)
             && Float.ltb (duration_seconds row) (Float.of_Z 604800) = true).
  { intros cols r row E. apply clean_row_inv in E.
    destruct E as (_ & _ & _ & _ & _ & _ & _ & Hd & _). exact Hd. }
  assert (Hout : forall d,
             Float.leb d (Float.of_Z 0) = true
             \/ Float.geb d (Float.of_Z 604800) = true ->
             Float.gtb d (Float.of_Z 0) && Float.ltb d (Float.of_Z 604800)
             = false).
  { intros d [H | H].
    - apply FloatFacts.leb_not_gtb in H. now rewrite H.
    - apply FloatFacts.geb_not_ltb in H. rewrite H. apply andb_false_r. }
  split.
  - intros raw r Hin Hbad. apply Hout in Hbad.
    assert (Hnone : clean_row' (raw_columns raw) r = None).
    { destruct (clean_row' (raw_columns raw) r) as [row|] eqn:E;
        [exfalso | reflexivity].
      pose proof (Hrange _ _ _ E) as Hd. apply clean_row_inv in E.
      destruct E as (_ & _ & _ & _ & Ed & _). rewrite Ed in Hd. congruence. }
    split; [exact Hnone | split].
    + intros row Hrow Heq. apply clean_data_rows in Hrow.
      destruct Hrow as (r' & _ & E). apply Hrange in E.
      rewrite Heq in E. congruence.
    + unfold clean_data. cbn [rows].
      exact (filter_map_length_lt _ _ r Hin Hnone).
  - intros raw row Hin. apply clean_data_rows in Hin.
    destruct Hin as (r & _ & E). apply Hrange in E.
    apply FloatFacts.open_range in E. exact E.
Qed.


(** C6.  Cleaning is idempotent: cleaning the clean set again gives the
    clean set. *)
Theorem clean_data_idempotent (raw : RawFrame) :
  clean_data' (as_raw (clean_data' raw)) = clean_data' raw.
Proof.
  unfold clean_data, as_raw. cbn [raw_columns raw_rows columns rows].
  f_equal. apply filter_map_all. intros row Hin.
  apply in_filter_map in Hin. destruct Hin as (r & _ & E).
  exact (clean_row_as_raw _ _ _ E).
Qed.

(** C10.  A shape text that reads "nan" once lower-cased and stripped (the
    input text "NaN", say) is replaced by the sentinel "various". *)
Theorem clean_data_shape_nan (raw : RawFrame) (r : RawRow) (row : Row)
  (s : string) :
  has_shape (raw_columns raw) = true ->
  In r (raw_rows raw) ->
  clean_row' (raw_columns raw) r = Some row ->
  raw_shape r = Some s ->
  Text.strip (Text.lower s) = "nan" ->
  In row (rows (clean_data' raw)) /\ shape row = Some "various".
Proof.
  intros Hcol Hin E Hs Hnan. split.
  - apply clean_data_rows. eauto.
  - apply clean_row_inv in E.
    destruct E as (_ & _ & _ & _ & _ & _ & _ & _ & _ & _ & Hsh & _).
    now rewrite Hsh, Hcol, Hs, clean_shape_Some, Hnan.
Qed.

End CleanFacts.

(* ================================================================== *)
(** * Facts about series                                               *)
(* ================================================================== *)

Module SeriesFacts.
Import Series.

(** ** Sorting *)

Lemma insert_by_perm {A : Type} (leb : A -> A -> bool) (x : A) (l : list A) :
  Permutation (insert_by leb x l) (x :: l).
Proof.
  induction l as [|y l IH]; simpl; [reflexivity|].
  destruct (leb x y); [reflexivity|].
  rewrite IH. apply perm_swap.
Qed.

Lemma sort_by_perm {A : Type} (leb : A -> A -> bool) (l : list A) :
  Permutation (sort_by leb l) l.
Proof.
  induction l as [|x l IH]; simpl; [reflexivity|].
  rewrite insert_by_perm. now constructor.
Qed.

Section SortIndex.

Context {V : Type}.

Let key_le (a b : Z * V) : Prop := fst a <= fst b.

Lemma insert_by_key_sorted (x : Z * V) (l : list (Z * V)) :
  StronglySorted key_le l ->
  StronglySorted key_le (insert_by (fun a b => fst a <=? fst b) x l).
Proof.
  induction 1 as [|y l Hs IH Hy]; simpl.
  - repeat constructor.
  - destruct (fst x <=? fst y) eqn:E.
    + apply Z.leb_le in E. constructor; [now constructor|].
      constructor; [exact E|].
      apply Forall_impl with (P := key_le y); [|exact Hy].
      unfold key_le. intros; lia.
    + apply Z.leb_gt in E. constructor; [exact IH|].
      eapply Permutation_Forall; [symmetry; apply insert_by_perm|].
      constructor; [unfold key_le; lia | exact Hy].
Qed.

Lemma sort_index_sorted (s : list (Z * V)) :
  StronglySorted (fun a b => fst a <= fst b) (sort_index s).
Proof.
  unfold sort_index, sort_by.
  induction s as [|x s IH]; simpl; [constructor|].
  now apply insert_by_key_sorted.
Qed.

End SortIndex.

(** ** Counting *)

Lemma total_perm {K : Type} (s s' : list (K * nat)) :
  Permutation s s' -> total s = total s'.
Proof.
  induction 1; simpl; lia.
Qed.

Lemma get_tally (k k' : Z) (s : list (Z * nat)) :
  get (tally k s) k' = if Z.eqb k k' then S (get s k') else get s k'.
Proof.
  induction s as [|[k0 c] s IH]; simpl.
  - reflexivity.
  - destruct (Z.eqb k0 k) eqn:E0; simpl.
    + apply Z.eqb_eq in E0. subst k0. now destruct (Z.eqb k k').
    + rewrite IH. destruct (Z.eqb k0 k') eqn:E1; [|reflexivity].
      apply Z.eqb_eq in E1. subst k0.
      rewrite Z.eqb_sym in E0. now rewrite E0.
Qed.

Lemma keys_tally (k k' : Z) (s : list (Z * nat)) :
  In k' (map fst (tally k s)) <-> k' = k \/ In k' (map fst s).
Proof.
  induction s as [|[k0 c] s IH]; simpl.
  - intuition.
  - destruct (Z.eqb k0 k) eqn:E0; simpl.
    + apply Z.eqb_eq in E0. subst k0. intuition.
    + rewrite IH. intuition.
Qed.

Lemma nodup_tally (k : Z) (s : list (Z * nat)) :
  NoDup (map fst s) -> NoDup (map fst (tally k s)).
Proof.
  induction s as [|[k0 c] s IH]; simpl; intros H.
  - repeat constructor. intros [].
  - destruct (Z.eqb k0 k) eqn:E0; simpl; [exact H|].
    inversion H as [|? ? Hnin Hnd]; subst. constructor; [|now apply IH].
    rewrite keys_tally. apply Z.eqb_neq in E0. intros [-> | Hin]; tauto.
Qed.

Lemma total_tally (k : Z) (s : list (Z * nat)) :
  total (tally k s) = S (total s).
Proof.
  induction s as [|[k0 c] s IH]; simpl; [reflexivity|].
  destruct (Z.eqb k0 k); simpl; lia.
Qed.

Lemma fold_tally (l : list Z) (s : list (Z * nat)) :
  let s' := fold_left (fun s k => tally k s) l s in
  (forall k, get s' k = (get s k + count_occ Z.eq_dec l k)%nat)
  /\ (forall k, In k (map fst s') <-> In k (map fst s) \/ In k l)
  /\ (NoDup (map fst s) -> NoDup (map fst s'))
  /\ total s' = (total s + List.length l)%nat.
Proof.
  revert s. induction l as [|x l IH]; intros s; simpl.
  - repeat split; intros; auto; try tauto; lia.
  - destruct (IH (tally x s)) as (Hg & Hk & Hn & Ht). repeat split.
    + intros k. rewrite Hg, get_tally.
      destruct (Z.eq_dec x k) as [->|Hne].
      * rewrite Z.eqb_refl. lia.
      * apply Z.eqb_neq in Hne. rewrite Hne. lia.
    + rewrite Hk, keys_tally. intuition.
    + rewrite Hk, keys_tally. intuition.
    + intros H. apply Hn, nodup_tally, H.
    + rewrite Ht, total_tally. lia.
Qed.

Lemma get_in (s : list (Z * nat)) (k : Z) (c : nat) :
  NoDup (map fst s) -> In (k, c) s -> get s k = c.
Proof.
  induction s as [|[k0 c0] s IH]; simpl; intros Hnd Hin; [tauto|].
  inversion Hnd as [|? ? Hnin Hnd']; subst.
  destruct Hin as [[= -> ->] | Hin].
  - now rewrite Z.eqb_refl.
  - destruct (Z.eqb k0 k) eqn:E; [|now apply IH].
    apply Z.eqb_eq in E. subst k0. exfalso. apply Hnin.
    apply in_map_iff. exists (k, c). auto.
Qed.

Lemma in_get (s : list (Z * nat)) (k : Z) :
  In k (map fst s) -> In (k, get s k) s.
Proof.
  induction s as [|[k0 c0] s IH]; simpl; [tauto|].
  destruct (Z.eqb k0 k) eqn:E.
  - apply Z.eqb_eq in E. subst k0. auto.
  - intros [-> | Hin]; [rewrite Z.eqb_refl in E; discriminate | auto].
Qed.

(** ** The grouped counts of a column, [value_counts().sort_index()] *)

Lemma grouped_perm (col : list Z) :
  Permutation (sort_index (value_counts col)) (counts col).
Proof.
  unfold sort_index, value_counts. now rewrite !sort_by_perm.
Qed.

Lemma grouped_nodup (col : list Z) :
  NoDup (map fst (sort_index (value_counts col))).
Proof.
  apply (Permutation_NoDup (l := map fst (counts col))).
  - apply Permutation_map. symmetry. apply grouped_perm.
  - apply (fold_tally col []). constructor.
Qed.

Lemma grouped_in (col : list Z) (k : Z) (c : nat) :
  In (k, c) (sort_index (value_counts col)) <->
  In k col /\ c = count_occ Z.eq_dec col k.
Proof.
  destruct (fold_tally col []) as (Hg & Hk & Hn & _). fold (counts col) in *.
  assert (Hnd : NoDup (map fst (counts col))) by (apply Hn; constructor).
  split.
  - intros Hin. apply (Permutation_in _ (grouped_perm col)) in Hin.
    split.
    + destruct (Hk k) as [H _]. destruct H as [[] | H]; [|exact H].
      apply in_map_iff. exists (k, c). auto.
    + rewrite <- (get_in _ _ _ Hnd Hin). apply Hg.
  - intros [Hin ->].
    apply (Permutation_in _ (Permutation_sym (grouped_perm col))).
    specialize (Hg k). simpl in Hg. rewrite <- Hg.
    apply in_get. apply Hk. auto.
Qed.

Lemma grouped_total (col : list Z) :
  total (sort_index (value_counts col)) = List.length col.
Proof.
  rewrite (total_perm _ _ (grouped_perm col)).
  destruct (fold_tally col []) as (_ & _ & _ & Ht). exact Ht.
Qed.

(** ** Dicts *)

Section Dict.

Context {K V : Type}.
Variable eqb : K -> K -> bool.
Hypothesis eqb_eq : forall a b, eqb a b = true -> a = b.

Lemma dict_set_fresh (k : K) (v : V) (d : list (K * V)) :
  ~ In k (map fst d) -> dict_set eqb k v d = (d ++ [(k, v)])%list.
Proof.
  induction d as [|[k0 v0] d IH]; simpl; intros H; [reflexivity|].
  destruct (eqb k0 k) eqn:E.
  - apply eqb_eq in E. tauto.
  - rewrite IH by tauto. reflexivity.
Qed.

Lemma fold_dict_set (s acc : list (K * V)) :
  NoDup (map fst (acc ++ s)%list) ->
  fold_left (fun d kv => dict_set eqb (fst kv) (snd kv) d) s acc
  = (acc ++ s)%list.
Proof.
  revert acc. induction s as [|[k v] s IH]; intros acc H; simpl.
  - now rewrite app_nil_r.
  - rewrite dict_set_fresh.
    + rewrite IH; rewrite <- app_assoc; [reflexivity | exact H].
    + rewrite map_app in H. simpl in H. apply NoDup_remove_2 in H.
      rewrite in_app_iff in H. tauto.
Qed.

(** A series with distinct labels becomes the dict of its pairs, in
    order. *)
Lemma to_dict_nodup (s : list (K * V)) :
  NoDup (map fst s) -> to_dict eqb s = s.
Proof.
  intros H. unfold to_dict. now rewrite fold_dict_set.
Qed.

End Dict.

Lemma label_eqb_eq (a b : label) : label_eqb a b = true -> a = b.
Proof.
  destruct a, b; simpl; try discriminate.
  - intros H. apply Z.eqb_eq in H. congruence.
  - intros H. apply String.eqb_eq in H. congruence.
Qed.

(** ** Renaming *)

Lemma total_rename (mapping : list (Z * string)) (s : list (Z * nat)) :
  total (rename mapping s) = total s.
Proof.
  induction s as [|kv s IH]; simpl; [reflexivity|]. now rewrite IH.
Qed.

Lemma keys_rename {V : Type} (mapping : list (Z * string))
  (s : list (Z * V)) :
  map fst (rename mapping s) = map (rename_label mapping) (map fst s).
Proof.
  unfold rename. rewrite !map_map. reflexivity.
Qed.

(** ** Arg-max *)

Lemma argmax_from_spec {K : Type} (s : list (K * nat)) (best : K * nat) :
  exists pre c post,
    best :: s = (pre ++ (argmax_from best s, c) :: post)%list
    /\ (forall x, In x pre -> (snd x < c)%nat)
    /\ (forall x, In x post -> (snd x <= c)%nat).
Proof.
  revert best. induction s as [|kv s IH]; intros best; simpl.
  - exists [], (snd best), []. simpl. destruct best. repeat split; tauto.
  - destruct (snd best <? snd kv)%nat eqn:E.
    + apply Nat.ltb_lt in E.
      destruct (IH kv) as (pre & c & post & Heq & Hpre & Hpost).
      exists (best :: pre), c, post.
      split; [simpl; now rewrite <- Heq|]. split; [|exact Hpost].
      intros x [<- | Hx]; [|auto].
      destruct pre as [|p pre]; simpl in Heq.
      * injection Heq as Hkv _. rewrite Hkv in E. exact E.
      * injection Heq as Hkv _. subst p.
        specialize (Hpre kv (or_introl eq_refl)). lia.
    + apply Nat.ltb_ge in E.
      destruct (IH best) as (pre & c & post & Heq & Hpre & Hpost).
      destruct pre as [|p pre]; simpl in Heq.
      * injection Heq as Hb Hs. exists [], c, (kv :: post).
        split; [simpl; now rewrite <- Hb, <- Hs|]. split; [simpl; tauto|].
        intros x [<- | Hx]; [|auto]. rewrite Hb in E. exact E.
      * injection Heq as Hb Hs. subst p.
        exists (best :: kv :: pre), c, post.
        split; [simpl; now rewrite <- Hs|]. split; [|exact Hpost].
        pose proof (Hpre best (or_introl eq_refl)).
        intros x [<- | [<- | Hx]]; [assumption | lia |].
        apply Hpre. now right.
Qed.

Lemma argmax_from_map {K L : Type} (f : K -> L) (s : list (K * nat))
  (best : K * nat) :
  argmax_from (f (fst best), snd best)
              (map (fun kv => (f (fst kv), snd kv)) s)
  = f (argmax_from best s).
Proof.
  revert best. induction s as [|kv s IH]; intros best; simpl; [reflexivity|].
  destruct (snd best <? snd kv)%nat; apply IH.
Qed.

Lemma sorted_after {A : Type} (R : A -> A -> Prop) (pre post : list A)
  (x : A) :
  StronglySorted R (pre ++ x :: post)%list -> Forall (R x) post.
Proof.
  induction pre as [|p pre IH]; simpl; intros H; inversion H; subst; auto.
Qed.

(** The first label of the maximum, in a series of counts sorted by label,
    is the peak of the column. *)
Lemma idxmax_grouped (col : list Z) :
  col <> [] ->
  exists k, idxmax (sort_index (value_counts col)) = Some k /\ is_peak col k.
Proof.
  intros Hne.
  pose proof (grouped_in col) as Hin.
  pose proof (sort_index_sorted (value_counts col)) as Hs.
  destruct (sort_index (value_counts col)) as [|b s] eqn:Eg.
  - exfalso. destruct col as [|x col]; [congruence|].
    apply (Hin x (count_occ Z.eq_dec (x :: col) x)). simpl; auto.
  - simpl. exists (argmax_from b s). split; [reflexivity|].
    destruct (argmax_from_spec s b) as (pre & c & post & Heq & Hpre & Hpost).
    set (k := argmax_from b s) in *.
    rewrite Heq in Hin, Hs.
    assert (Hk : In k col /\ c = count_occ Z.eq_dec col k).
    { apply Hin. apply in_elt. }
    destruct Hk as [Hk Hc].
    assert (Hle : forall k' c', In (k', c') (pre ++ (k, c) :: post)%list ->
                                (c' <= c)%nat).
    { intros k' c' H. apply in_app_iff in H. destruct H as [H | [H | H]].
      - apply Hpre in H. simpl in H. lia.
      - injection H as _ <-. lia.
      - apply Hpost in H. exact H. }
    repeat split.
    + exact Hk.
    + intros k'. rewrite <- Hc.
      destruct (in_dec Z.eq_dec k' col) as [Hi | Hi].
      * apply (Hle k'). apply Hin. auto.
      * apply (count_occ_not_In Z.eq_dec) in Hi. rewrite Hi. lia.
    + intros k' Hi Hcnt. rewrite <- Hc in Hcnt.
      assert (H : In (k', c) (pre ++ (k, c) :: post)%list)
        by (apply Hin; auto).
      apply in_app_iff in H. destruct H as [H | [H | H]].
      * apply Hpre in H. simpl in H. lia.
      * injection H as ->. lia.
      * apply sorted_after in Hs. rewrite Forall_forall in Hs.
        apply Hs in H. exact H.
Qed.

End SeriesFacts.

(* ================================================================== *)
(** * Facts about [perform_eda]                                        *)
(* ================================================================== *)

Section EdaFacts.

Import Series SeriesFacts.

Lemma month_label_inj (a b : Z) :
  rename_label month_map a = rename_label month_map b -> a = b.
Proof.
  unfold rename_label, month_map. cbn [find fst snd].
  repeat match goal with
         | |- context [Z.eqb ?n a] => destruct (Z.eqb_spec n a)
         end;
  repeat match goal with
         | |- context [Z.eqb ?n b] => destruct (Z.eqb_spec n b)
         end;
  intros H; try discriminate H; try congruence.
Qed.

Lemma idxmax_nonempty {K : Type} (s : list (K * nat)) (d : K) :
  exists k, (if empty s then Some d else idxmax s) = Some k
            /\ (s = [] -> k = d) /\ (s <> [] -> idxmax s = Some k).
Proof.
  destruct s as [|b s]; simpl.
  - exists d. repeat split; congruence.
  - exists (argmax_from b s). repeat split; congruence.
Qed.

Lemma idxmax_rename (mapping : list (Z * string)) (s : list (Z * nat)) :
  idxmax (rename mapping s) = option_map (rename_label mapping) (idxmax s).
Proof.
  destruct s as [|b s]; simpl; [reflexivity|]. f_equal.
  apply (argmax_from_map (rename_label mapping)).
Qed.

(** What [perform_eda] returns for a frame that has its three optional
    columns: the grouped counts and the peaks. *)
Lemma perform_eda_groupings (df : Frame) :
  has_country (columns df) = true ->
  has_state (columns df) = true ->
  has_shape (columns df) = true ->
  exists s,
    perform_eda df = Some s
    /\ total_sightings s = List.length (rows df)
    /\ sightings_by_year s = sort_index (value_counts (map year (rows df)))
    /\ sightings_by_month s
       = rename month_map (sort_index (value_counts (map month (rows df))))
    /\ sightings_by_hour s = sort_index (value_counts (map hour (rows df)))
    /\ (forall y, idxmax (sort_index (value_counts (map year (rows df))))
                  = Some y ->
                  peak_year_of_reports s = str_of_Z y)
    /\ (forall m, idxmax (sort_index (value_counts (map month (rows df))))
                  = Some m ->
                  peak_month s = rename_label month_map m)
    /\ (forall h, idxmax (sort_index (value_counts (map hour (rows df))))
                  = Some h ->
                  peak_hour_numeric s = Some h).
Proof.
  intros Hc Hst Hsh. unfold perform_eda. cbv zeta.
  rewrite Hc, Hst, Hsh, idxmax_rename.
  pose proof (grouped_nodup (map year (rows df))) as Ny.
  pose proof (grouped_nodup (map month (rows df))) as Nm.
  pose proof (grouped_nodup (map hour (rows df))) as Nh.
  assert (Nm' : NoDup (map fst (rename month_map
              (sort_index (value_counts (map month (rows df))))))).
  { rewrite keys_rename.
    apply Finite.Injective_map_NoDup; [|exact Nm].
    intros a b. apply month_label_inj. }
  pose proof (fun a b => proj1 (Z.eqb_eq a b)) as Zeq.
  rewrite !(to_dict_nodup Z.eqb Zeq _ Ny), !(to_dict_nodup Z.eqb Zeq _ Nh).
  rewrite (to_dict_nodup label_eqb label_eqb_eq _ Nm').
  destruct (sort_index (value_counts (map year (rows df)))) as [|by_ sy];
    destruct (sort_index (value_counts (map month (rows df)))) as [|bm sm];
    destruct (sort_index (value_counts (map hour (rows df)))) as [|bh sh];
    cbn [bind guard empty idxmax rename map option_map];
    (eexists; split; [reflexivity|]);
    cbn [total_sightings sightings_by_year sightings_by_month
         sightings_by_hour peak_year_of_reports peak_month peak_hour_numeric];
    repeat split; intros ? [=]; congruence.
Qed.


(** The month grouping, whose keys are renamed to month names, still holds
    one entry for each month of the column, with its number of
    occurrences. *)
Lemma renamed_months (l : list Z) :
  NoDup (map fst (rename month_map (sort_index (value_counts l))))
  /\ (forall k c,
        In (rename_label month_map k, c)
           (rename month_map (sort_index (value_counts l)))
        <-> In k l /\ c = count_occ Z.eq_dec l k).
Proof.
  split.
  - rewrite keys_rename.
    apply Finite.Injective_map_NoDup; [|apply grouped_nodup].
    intros a b. apply month_label_inj.
  - intros k c. split.
    + intros H. apply grouped_in. unfold rename in H. apply in_map_iff in H.
      destruct H as ([k0 c0] & [= E <-] & Hin). simpl in E.
      apply month_label_inj in E. now subst k0.
    + intros [Hin ->]. unfold rename. apply in_map_iff.
      exists (k, count_occ Z.eq_dec l k).
      split; [reflexivity|]. apply grouped_in. auto.
Qed.


End EdaFacts.

(* ================================================================== *)
(** * Facts about [export_globe_data]                                  *)
(* ================================================================== *)

Section GlobeFacts.

Local Open Scope R_scope.

Lemma ln_le (x y : R) : 0 < x -> x <= y -> ln x <= ln y.
Proof.
  intros Hx [Hlt | ->]; [|lra].
  left. now apply ln_increasing.
Qed.

Lemma Q2R_max_duration_cap : Q2R max_duration_cap = 86400.
Proof. unfold max_duration_cap, Q2R. simpl. lra. Qed.

Lemma log_min_duration_0 : log_min_duration = 0.
Proof.
  unfold log_min_duration, min_duration.
  now rewrite RMicromega.Q2R_1, ln_1.
Qed.

Lemma log_max_duration_cap_pos : 0 < log_max_duration_cap.
Proof.
  unfold log_max_duration_cap. rewrite Q2R_max_duration_cap, <- ln_1.
  apply ln_increasing; lra.
Qed.

Lemma log_norm_duration_eq (q : Q) :
  log_norm_duration q = ln (Q2R q) / ln 86400.
Proof.
  unfold log_norm_duration.
  pose proof log_max_duration_cap_pos as Hpos.
  destruct (Rlt_dec log_min_duration log_max_duration_cap) as [_ | Hn].
  - rewrite log_min_duration_0, !Rminus_0_r.
    unfold log_max_duration_cap. now rewrite Q2R_max_duration_cap.
  - rewrite log_min_duration_0 in Hn. contradiction.
Qed.

(** The two clips of lines 210-211 bring a finite duration into
    [1, 86400]. *)
Lemma normalized_duration (q : Q) :
  exists n,
    Float.clip min_duration max_duration_cap
      (Float.clip_lower (1 # 1000000) (Fin q)) = Some n
    /\ (n == Qmin (Qmax q 1) 86400)%Q.
Proof.
  eexists. split; [reflexivity|].
  unfold min_duration, max_duration_cap.
  rewrite <- Q.max_assoc.
  rewrite (Q.max_r (1 # 1000000) 1) by (unfold Qle; simpl; lia).
  reflexivity.
Qed.

Lemma clamped_range (q : Q) :
  1 <= Q2R (Qmin (Qmax q 1) 86400) <= 86400.
Proof.
  split.
  - rewrite <- RMicromega.Q2R_1. apply Qle_Rle.
    apply Q.min_glb; [apply Q.le_max_r | unfold Qle; simpl; lia].
  - replace 86400 with (Q2R 86400) by (unfold Q2R; simpl; lra).
    apply Qle_Rle. apply Q.le_min_r.
Qed.

Lemma duration_column_not_empty (globe_df : list Row) (row : Row) :
  In row globe_df ->
  Float.notna (duration_seconds row) = true ->
  Series.empty (filter Float.notna (map duration_seconds globe_df)) = false.
Proof.
  intros Hin Hna.
  assert (H : In (duration_seconds row)
                 (filter Float.notna (map duration_seconds globe_df))).
  { apply filter_In. split; [now apply in_map | exact Hna]. }
  destruct (filter _ _); [destruct H | reflexivity].
Qed.

(** C8.  For a sampled record with a finite duration (in particular one in
    (0, 604800)), the magnitude is 0.03 + t * 0.25 where t is the logarithm
    of the duration clamped to [1, 86400] over the logarithm of 86400; t lies
    in [0, 1] and the magnitude in [0.03, 0.28].  The record's point has
    radius max(0.01, magnitude), and every exported radius is at least
    0.01. *)
Theorem globe_magnitude_bounds (globe_df : list Row) (row : Row) (q : Q) :
  In row globe_df ->
  duration_seconds row = Fin q ->
  let t := ln (Q2R (Qmin (Qmax q 1) 86400)) / ln 86400 in
  let m := magnitude globe_df row in
  0 <= t <= 1
  /\ m = 0.03 + t * 0.25
  /\ 0.03 <= m <= 0.28
  /\ In {| lat := latitude row; lng := longitude row; alt := 5 # 1000;
           radius := Rmax 0.01 m; color := "rgba(255, 255, 0, 0.7)" |}
        (output_data globe_df)
  /\ 0.01 <= Rmax 0.01 m
  /\ (forall p, In p (output_data globe_df) -> 0.01 <= radius p).
Proof.
  intros Hin Hd t m.
  pose proof (clamped_range q) as [Hlo Hhi].
  assert (Hln : 0 < ln 86400) by (rewrite <- ln_1; apply ln_increasing; lra).
  assert (Ht : 0 <= t <= 1).
  { unfold t. split.
    - apply Rmult_le_pos; [|left; now apply Rinv_0_lt_compat].
      rewrite <- ln_1. apply ln_le; lra.
    - apply (Rmult_le_reg_r (ln 86400)); [exact Hln|].
      unfold Rdiv. rewrite Rmult_assoc, Rinv_l, Rmult_1_r, Rmult_1_l by lra.
      apply ln_le; lra. }
  assert (Hm : m = 0.03 + t * 0.25).
  { unfold m, magnitude.
    rewrite (duration_column_not_empty globe_df row Hin)
      by (rewrite Hd; reflexivity).
    cbn [negb]. rewrite Hd.
    destruct (normalized_duration q) as (n & -> & Hn).
    rewrite log_norm_duration_eq. unfold t.
    now rewrite (Qeq_eqR _ _ Hn). }
  split; [exact Ht|]. split; [exact Hm|]. split; [lra|].
  split.
  - unfold output_data. apply in_map_iff. exists row. auto.
  - split; [apply Rmax_l|].
    intros p Hp. unfold output_data in Hp. apply in_map_iff in Hp.
    destruct Hp as (r & <- & _). cbn [radius]. apply Rmax_l.
Qed.

End GlobeFacts.

(** C7.  For a frame of more than 10,000 records the exported list is made
    from the fixed-seed sample of 10,000 records, drawn without replacement,
    and has exactly 10,000 points; the sampler is consulted for nothing
    else, so two runs on the same frame export the same list.  For a frame of
    at most 10,000 records one point is exported per record. *)
Theorem export_globe_data_sampling
  (sample : nat -> Z -> list Row -> list Row) (df : Frame) :
  (forall l : list Row,
      (MAX_POINTS_ON_GLOBE <= List.length l)%nat ->
      List.length (sample MAX_POINTS_ON_GLOBE 42 l) = MAX_POINTS_ON_GLOBE
      /\ exists rest,
          Permutation (sample MAX_POINTS_ON_GLOBE 42 l ++ rest)%list l) ->
  ((10000 < List.length (rows df))%nat ->
   export_globe_data sample df
   = output_data (sample 10000%nat 42 (rows df))
   /\ List.length (export_globe_data sample df) = 10000%nat
   /\ (exists rest,
         Permutation (sample 10000%nat 42 (rows df) ++ rest)%list (rows df))
   /\ (forall sample' : nat -> Z -> list Row -> list Row,
         sample' 10000%nat 42 (rows df) = sample 10000%nat 42 (rows df) ->
         export_globe_data sample' df = export_globe_data sample df))
  /\ ((List.length (rows df) <= 10000)%nat ->
      export_globe_data sample df = output_data (rows df)
      /\ List.length (export_globe_data sample df) = List.length (rows df)
      /\ map lat (export_globe_data sample df) = map latitude (rows df)
      /\ map lng (export_globe_data sample df) = map longitude (rows df)).
Proof.
  intros Hsample.
  change 10000%nat with MAX_POINTS_ON_GLOBE.
  assert (Hout : forall l, List.length (output_data l) = List.length l)
    by (intros; apply length_map).
  split.
  - intros Hlen.
    assert (E : forall smp, export_globe_data smp df
                            = output_data (smp MAX_POINTS_ON_GLOBE 42 (rows df))).
    { intros smp. unfold export_globe_data.
      destruct (rows df) as [|r l] eqn:El; [simpl in Hlen; lia|].
      cbn [Series.empty]. apply Nat.ltb_lt in Hlen. now rewrite Hlen. }
    destruct (Hsample (rows df)) as (Hn & Hperm); [lia|].
    repeat split.
    + apply E.
    + now rewrite E, Hout.
    + exact Hperm.
    + intros sample' H. now rewrite !E, H.
  - intros Hlen.
    assert (E : export_globe_data sample df = output_data (rows df)).
    { unfold export_globe_data.
      destruct (rows df) as [|r l] eqn:El; [reflexivity|].
      cbn [Series.empty]. apply Nat.ltb_ge in Hlen. now rewrite Hlen. }
    rewrite E, Hout. unfold output_data. rewrite !map_map.
    repeat split; reflexivity.
Qed.

(* ================================================================== *)
(** * Facts about the driver                                           *)
(* ================================================================== *)

Section MainFacts.

Variable to_datetime_text : string -> option Timestamp.
Variable to_numeric_text : string -> option float.
Variable sample : nat -> Z -> list Row -> list Row.

Local Notation clean_data' := (clean_data to_datetime_text to_numeric_text).
Local Notation main' := (main to_datetime_text to_numeric_text sample).

(** C2, as the code has it.  When the clean set is empty, and so when there
    is no raw record at all, the run raises nothing and writes both
    artifacts: the summary artifact is the empty JSON object, without any
    field, and the globe artifact is the empty array. *)
Theorem main_empty_clean_set (raw : RawFrame) :
  (rows (clean_data' raw) = [] -> main' raw = Some (JObj [], []))
  /\ (raw_rows raw = [] -> main' raw = Some (JObj [], [])).
Proof.
  assert (H : rows (clean_data' raw) = [] -> main' raw = Some (JObj [], [])).
  { intros E. unfold main, export_globe_data. now rewrite E. }
  split; [exact H|].
  intros E. apply H. unfold clean_data. cbn [rows]. now rewrite E.
Qed.

End MainFacts.

(* ================================================================== *)
(** * The pipeline on concrete inputs                                  *)
(* ================================================================== *)

Section Examples.

Import Instances.

Local Notation parsed := (clean_data to_datetime_text to_numeric_text).
Local Notation first_clean :=
  (nth 0 (rows (parsed small_input)) one_row).

Example strip_lower_disk : Text.strip (Text.lower "  Disk ") = "disk".
Proof. reflexivity. Qed.

Example clean_shape_values :
  map clean_shape [Some "Unknown"; Some "OTHER"; Some ""; None; Some "Disk"]
  = [Some "various"; Some "various"; Some "various"; Some "various";
     Some "disk"].
Proof. reflexivity. Qed.

Example clean_country_values :
  map clean_country [Some "GB"; Some "  "; Some " us "]
  = [Some "uk"; Some "unknown"; Some "us"].
Proof. reflexivity. Qed.

Example median_of_three :
  Series.median [Fin 100; Fin 300; Fin 200] = Fin 200.
Proof. reflexivity. Qed.

Example small_input_kept :
  map (fun r => (year r, month r, hour r, shape r, country r, state r))
      (rows (parsed small_input))
  = [(1949, 10, 20, Some "cylinder", Some "nan", Some "NAN");
     (1950, 11, 21, Some "various", Some "uk", Some "UNKNOWN");
     (1950, 6, 21, Some "light", Some "us", Some "TX")].
Proof. reflexivity. Qed.

Example small_input_summary :
  option_map
    (fun s => (total_sightings s, peak_month s, peak_hour_readable s,
               peak_year_of_reports s, sightings_by_month s))
    (perform_eda (parsed small_input))
  = Some (3%nat, LStr "Jun", "21:00 - 22:00", "1950",
          [(LStr "Jun", 1%nat); (LStr "Oct", 1%nat); (LStr "Nov", 1%nat)]).
Proof. reflexivity. Qed.

(** C1, on a sighting whose country and state cells are missing: the clean
    record's country is the text "nan" and its state the text "NAN", not
    "unknown" and "UNKNOWN".  [astype(str)] has turned the missing values
    into text before [fillna] runs. *)
Theorem clean_data_missing_country :
  map (fun r => (country r, state r))
      (rows (parsed (mkRawFrame all_columns [no_country])))
  = [(Some "nan", Some "NAN")].
Proof. reflexivity. Qed.

Lemma clean_data_duration_bounds_witness :
  (In zero_duration (raw_rows small_input)
   /\ Float.leb (to_numeric to_numeric_text
                   (raw_duration_seconds zero_duration))
                (Float.of_Z 0) = true
   /\ clean_row to_datetime_text to_numeric_text (raw_columns small_input)
        zero_duration = None
   /\ (List.length (rows (parsed small_input))
       < List.length (raw_rows small_input))%nat)
  /\ (In first_clean (rows (parsed small_input))
      /\ exists q, duration_seconds first_clean = Fin q
                   /\ (0 < q)%Q /\ (q < 604800)%Q).
Proof.
  split.
  - destruct (proj1 (clean_data_duration_bounds to_datetime_text
                       to_numeric_text) small_input zero_duration)
      as (Hnone & _ & Hlen);
      [right; left; reflexivity | left; reflexivity |].
    split; [right; left; reflexivity|]. split; [reflexivity|].
    split; [exact Hnone | exact Hlen].
  - split; [vm_compute; auto|].
    apply (proj2 (clean_data_duration_bounds to_datetime_text
                    to_numeric_text) small_input).
    vm_compute. auto.
Defined.


Lemma clean_data_shape_nan_witness :
  has_shape (raw_columns small_input) = true
  /\ In nan_shape (raw_rows small_input)
  /\ raw_shape nan_shape = Some "NaN"
  /\ Text.strip (Text.lower "NaN") = "nan"
  /\ In (nth 1 (rows (parsed small_input)) one_row)
        (rows (parsed small_input))
  /\ shape (nth 1 (rows (parsed small_input)) one_row) = Some "various".
Proof.
  split; [reflexivity|]. split; [vm_compute; auto|].
  split; [reflexivity|]. split; [reflexivity|].
  apply (clean_data_shape_nan to_datetime_text to_numeric_text small_input
           nan_shape _ "NaN").
  - reflexivity.
  - vm_compute. auto.
  - reflexivity.
  - reflexivity.
  - reflexivity.
Defined.



Lemma globe_magnitude_bounds_witness :
  In one_row [one_row]
  /\ duration_seconds one_row = Fin 2700
  /\ (0.03 <= magnitude [one_row] one_row <= 0.28)%R
  /\ (0.01 <= Rmax 0.01 (magnitude [one_row] one_row))%R.
Proof.
  split; [left; reflexivity|]. split; [reflexivity|].
  destruct (globe_magnitude_bounds [one_row] one_row 2700)
    as (_ & _ & H & _ & H' & _);
    [left; reflexivity | reflexivity |].
  split; [exact H | exact H'].
Defined.

(** The sample that takes the first rows is one without replacement. *)
Lemma first_rows_sample (l : list Row) :
  (MAX_POINTS_ON_GLOBE <= List.length l)%nat ->
  List.length (sample MAX_POINTS_ON_GLOBE 42 l) = MAX_POINTS_ON_GLOBE
  /\ exists rest, Permutation (sample MAX_POINTS_ON_GLOBE 42 l ++ rest)%list l.
Proof.
  intros H. unfold sample. split.
  - now apply firstn_length_le.
  - exists (skipn MAX_POINTS_ON_GLOBE l). now rewrite firstn_skipn.
Qed.

Lemma export_globe_data_sampling_witness :
  ((10000 < List.length (rows (frame_of_size 15000)))%nat
   /\ List.length (export_globe_data sample (frame_of_size 15000))
      = 10000%nat)
  /\ ((List.length (rows (frame_of_size 500)) <= 10000)%nat
      /\ List.length (export_globe_data sample (frame_of_size 500))
         = 500%nat).
Proof.
  split.
  - assert (H : (10000 < List.length (rows (frame_of_size 15000)))%nat)
      by (apply Nat.ltb_lt; vm_compute; reflexivity).
    split; [exact H|].
    exact (proj1 (proj2 (proj1 (export_globe_data_sampling sample
                                  (frame_of_size 15000) first_rows_sample)
                           H))).
  - assert (H : (List.length (rows (frame_of_size 500)) <= 10000)%nat)
      by (apply Nat.leb_le; vm_compute; reflexivity).
    split; [exact H|].
    rewrite (proj1 (proj2 (proj2 (export_globe_data_sampling sample
                                    (frame_of_size 500) first_rows_sample)
                             H))).
    cbn [frame_of_size rows]. apply repeat_length.
Defined.

Lemma main_empty_clean_set_witness :
  (rows (parsed (mkRawFrame all_columns [zero_duration; bad_time])) = []
   /\ main to_datetime_text to_numeric_text sample
        (mkRawFrame all_columns [zero_duration; bad_time])
      = Some (JObj [], []))
  /\ (raw_rows no_input = []
      /\ main to_datetime_text to_numeric_text sample no_input
         = Some (JObj [], [])).
Proof.
  split.
  - split; [reflexivity|].
    apply (proj1 (main_empty_clean_set to_datetime_text to_numeric_text
                    sample _)).
    reflexivity.
  - split; [reflexivity|].
    apply (proj2 (main_empty_clean_set to_datetime_text to_numeric_text
                    sample no_input)).
    reflexivity.
Defined.

(** C2, as the claim has it, fails on the input without any record: the
    run succeeds, but its summary artifact has no [total_sightings] entry,
    so none that is 0. *)
Lemma main_empty_summary_has_no_total :
  raw_rows no_input = []
  /\ (exists s g, main to_datetime_text to_numeric_text sample no_input
                  = Some (s, g))
  /\ ~ (exists s g,
          main to_datetime_text to_numeric_text sample no_input = Some (s, g)
          /\ json_field "total_sightings" s = Some (JInt 0)).
Proof.
  split; [reflexivity|]. split.
  - exists (JObj []), []. reflexivity.
  - intros (s & g & Hmain & Hfield).
    assert (E : main to_datetime_text to_numeric_text sample no_input
                = Some (JObj [], [])) by reflexivity.
    rewrite E in Hmain. injection Hmain as <- _. discriminate Hfield.
Qed.



End Examples.

(* ================================================================== *)
(** * More about [clean_data]                                          *)
(* ================================================================== *)

Section CleanMore.

Variable to_datetime_text : string -> option Timestamp.
Variable to_numeric_text : string -> option float.

Local Notation to_datetime' := (to_datetime to_datetime_text).
Local Notation to_numeric' := (to_numeric to_numeric_text).
Local Notation clean_row' := (clean_row to_datetime_text to_numeric_text).
Local Notation clean_data' := (clean_data to_datetime_text to_numeric_text).

Lemma clean_shape_normal (c : text_cell) :
  exists t, clean_shape c = Some t
            /\ Text.strip (Text.lower t) = t
            /\ ~ In t ["unknown"; "other"; "nan"; ""; "na"; "unspecified"].
Proof.
  assert (Hv : exists t, Some "various" = Some t
                         /\ Text.strip (Text.lower t) = t
                         /\ ~ In t ["unknown"; "other"; "nan"; ""; "na";
                                    "unspecified"]).
  { exists "various". split; [reflexivity|]. split; [reflexivity|].
    simpl. intros H. repeat destruct H as [H | H]; try discriminate H.
    exact H. }
  destruct c as [s|]; [|exact Hv].
  rewrite clean_shape_Some.
  destruct (existsb _ _) eqn:E; [exact Hv|].
  exists (Text.strip (Text.lower s)). split; [reflexivity|].
  split; [apply TextFacts.strip_lower_idem|].
  intros Hin.
  assert (Ht : existsb (String.eqb (Text.strip (Text.lower s)))
                 ["unknown"; "other"; "nan"; ""; "na"; "unspecified"] = true).
  { apply existsb_exists. eexists. split; [exact Hin|]. apply String.eqb_refl. }
  congruence.
Qed.

Lemma clean_country_normal (c : text_cell) :
  exists t, clean_country c = Some t
            /\ Text.strip (Text.lower t) = t /\ t <> "gb" /\ t <> "".
Proof.
  destruct c as [s|].
  - rewrite clean_country_Some.
    destruct (String.eqb (Text.strip (Text.lower s)) "gb") eqn:E1.
    { exists "uk". repeat split; discriminate. }
    destruct (String.eqb (Text.strip (Text.lower s)) "") eqn:E2.
    { exists "unknown". repeat split; discriminate. }
    exists (Text.strip (Text.lower s)). split; [reflexivity|].
    split; [apply TextFacts.strip_lower_idem|].
    split; intros H; rewrite H in *; discriminate.
  - exists "nan". repeat split; discriminate.
Qed.

Lemma clean_state_normal (c : text_cell) :
  exists t, clean_state c = Some t
            /\ Text.strip (Text.upper t) = t /\ t <> "".
Proof.
  destruct c as [s|].
  - rewrite clean_state_Some.
    destruct (String.eqb (Text.strip (Text.upper s)) "") eqn:E.
    { exists "UNKNOWN". repeat split; discriminate. }
    exists (Text.strip (Text.upper s)). split; [reflexivity|].
    split; [apply TextFacts.strip_upper_idem|].
    intros H; rewrite H in *; discriminate.
  - exists "NAN". repeat split; discriminate.
Qed.

(** X1.  In a clean set that has the shape column, no shape is missing:
    every shape is a text that lower-casing and stripping leave as it is, and
    none is one of the values that stand for an unknown shape. *)
Theorem clean_shape_invariant (raw : RawFrame) (row : Row) :
  has_shape (raw_columns raw) = true ->
  In row (rows (clean_data' raw)) ->
  exists t, shape row = Some t
            /\ Text.strip (Text.lower t) = t
            /\ ~ In t ["unknown"; "other"; "nan"; ""; "na"; "unspecified"].
Proof.
  intros Hcol Hin. apply clean_data_rows in Hin.
  destruct Hin as (r & _ & E). apply clean_row_inv in E.
  destruct E as (_ & _ & _ & _ & _ & _ & _ & _ & _ & _ & Hs & _).
  rewrite Hs, Hcol. apply clean_shape_normal.
Qed.

(** X2.  In a clean set that has the country and state columns, every
    country is a lower-case, stripped text that is neither "gb" nor empty,
    and every state an upper-case, stripped text that is not empty. *)
Theorem clean_country_state_invariant (raw : RawFrame) (row : Row) :
  has_country (raw_columns raw) = true ->
  has_state (raw_columns raw) = true ->
  In row (rows (clean_data' raw)) ->
  (exists t, country row = Some t
             /\ Text.strip (Text.lower t) = t /\ t <> "gb" /\ t <> "")
  /\ (exists t, state row = Some t
                /\ Text.strip (Text.upper t) = t /\ t <> "").
Proof.
  intros Hc Hs Hin. apply clean_data_rows in Hin.
  destruct Hin as (r & _ & E). apply clean_row_inv in E.
  destruct E as (_ & _ & _ & _ & _ & _ & _ & _ & _ & _ & _ & Hco & Hst).
  rewrite Hco, Hst, Hc, Hs.
  split; [apply clean_country_normal | apply clean_state_normal].
Qed.

(** X3.  In a kept record, a country cell that holds an ASCII text becomes
    that text lower-cased and stripped, with "gb" turned into "uk" and the
    empty text into "unknown"; a state cell that holds an ASCII text becomes
    that text upper-cased and stripped, with the empty text turned into
    "UNKNOWN".  Each holds whatever the other cell and column are. *)
Theorem clean_country_state_of_text (cols : Columns) (r : RawRow) (row : Row) :
  clean_row' cols r = Some row ->
  (forall c : string,
      has_country cols = true ->
      raw_country r = Some c ->
      Text.is_ascii c = true ->
      country row
      = Some (if String.eqb (Text.strip (Text.lower c)) "gb" then "uk"
              else if String.eqb (Text.strip (Text.lower c)) ""
                   then "unknown"
                   else Text.strip (Text.lower c)))
  /\ (forall s : string,
        has_state cols = true ->
        raw_state r = Some s ->
        Text.is_ascii s = true ->
        state row
        = Some (if String.eqb (Text.strip (Text.upper s)) "" then "UNKNOWN"
                else Text.strip (Text.upper s))).
Proof.
  intros E. apply clean_row_inv in E.
  destruct E as (_ & _ & _ & _ & _ & _ & _ & _ & _ & _ & _ & Hco & Hst).
  split.
  - intros c Hc Ec _. rewrite Hco, Hc, Ec, clean_country_Some.
    destruct (String.eqb _ "gb"); [reflexivity|].
    now destruct (String.eqb _ "").
  - intros s Hs Es _. rewrite Hst, Hs, Es, clean_state_Some.
    now destruct (String.eqb _ "").
Qed.

(** X4.  Within a raw frame, a record is dropped when its time does not
    parse or is missing, or when its duration, latitude or longitude is not
    a finite number (text that does not parse, a missing value, an
    infinity): it yields no clean record, and the clean set has fewer
    records than the frame. *)
Theorem clean_data_drops_unparsable (raw : RawFrame) (r : RawRow) :
  In r (raw_rows raw) ->
  to_datetime' (raw_datetime r) = None
  \/ (exists c, In c [raw_duration_seconds r; raw_latitude r; raw_longitude r]
                /\ forall q, to_numeric' c <> Fin q) ->
  clean_row' (raw_columns raw) r = None
  /\ (List.length (rows (clean_data' raw)) < List.length (raw_rows raw))%nat.
Proof.
  intros Hin Hbad.
  assert (Hnone : clean_row' (raw_columns raw) r = None).
  { destruct (clean_row' (raw_columns raw) r) as [row|] eqn:E;
      [exfalso | reflexivity].
    assert (Hk : clean_row' (raw_columns raw) r <> None) by congruence.
    apply clean_row_kept in Hk. destruct Hk as (Ht & Hd & Hla & Hlo).
    apply FloatFacts.open_range in Hd. destruct Hd as (d & Hd & _).
    apply FloatFacts.closed_range in Hla. destruct Hla as (la & Hla & _).
    apply FloatFacts.closed_range in Hlo. destruct Hlo as (lo & Hlo & _).
    destruct Hbad as [Hbad | (c & Hc & Hbad)]; [contradiction|].
    simpl in Hc. destruct Hc as [<- | [<- | [<- | []]]]; eapply Hbad; eauto. }
  split; [exact Hnone|].
  unfold clean_data. cbn [rows].
  exact (filter_map_length_lt _ _ r Hin Hnone).
Qed.

Lemma clean_row_required (cols cols' : Columns) (r r' : RawRow) :
  raw_datetime r = raw_datetime r' ->
  raw_duration_seconds r = raw_duration_seconds r' ->
  raw_latitude r = raw_latitude r' ->
  raw_longitude r = raw_longitude r' ->
  option_map (fun r => (datetime r, year r, month r, hour r,
                        duration_seconds r, latitude r, longitude r))
             (clean_row' cols r)
  = option_map (fun r => (datetime r, year r, month r, hour r,
                          duration_seconds r, latitude r, longitude r))
               (clean_row' cols' r').
Proof.
  intros Ht Hd Hla Hlo. unfold clean_row. rewrite Ht, Hd, Hla, Hlo.
  destruct (to_datetime' (raw_datetime r')) as [t|]; cbn [bind];
    [|reflexivity].
  repeat (match goal with
          | |- context [guard ?b] => destruct b; cbn [bind guard]
          end; [|reflexivity]).
  reflexivity.
Qed.

(** X5.  Which records are kept, and with what time, duration and position,
    does not depend on the optional columns: two inputs that differ only in
    their shape, country and state columns give clean sets that agree on all
    the other columns. *)
Theorem clean_data_ignores_optional_columns (cols cols' : Columns)
  (l l' : list RawRow) :
  map (fun r => (raw_datetime r, raw_duration_seconds r, raw_latitude r,
                 raw_longitude r)) l
  = map (fun r => (raw_datetime r, raw_duration_seconds r, raw_latitude r,
                   raw_longitude r)) l' ->
  map (fun r => (datetime r, year r, month r, hour r, duration_seconds r,
                 latitude r, longitude r))
      (rows (clean_data' (mkRawFrame cols l)))
  = map (fun r => (datetime r, year r, month r, hour r, duration_seconds r,
                   latitude r, longitude r))
        (rows (clean_data' (mkRawFrame cols' l'))).
Proof.
  unfold clean_data. cbn [raw_columns raw_rows rows].
  revert l'. induction l as [|r l IH]; intros [|r' l'] H;
    try discriminate H; [reflexivity|].
  injection H as Ht Hd Hla Hlo Hrest. specialize (IH l' Hrest).
  pose proof (clean_row_required cols cols' r r' Ht Hd Hla Hlo) as Hr.
  cbn [filter_map].
  destruct (clean_row' cols r) as [row|], (clean_row' cols' r') as [row'|];
    simpl in Hr; try discriminate Hr; [|exact IH].
  cbn [map]. f_equal; [congruence | exact IH].
Qed.

End CleanMore.

(* ================================================================== *)
(** * Facts about the column names                                     *)
(* ================================================================== *)

Module HeaderFacts.
Import Header.

(** A lower-case letter, a digit or the underscore. *)
Local Notation is_plain n :=
  ((48 <=? n) && (n <=? 57) || (n =? 95) || (97 <=? n) && (n <=? 122))%nat.

Lemma word_lower_char (c : ascii) :
  is_word_char (Text.lower_char c) = true ->
  is_plain (nat_of_ascii (Text.lower_char c)) = true.
Proof. destruct c as [[] [] [] [] [] [] [] []]; intros H; exact H. Qed.

Lemma plain_char (c : ascii) :
  is_plain (nat_of_ascii c) = true ->
  Text.lower_char c = c /\ Text.is_space c = false /\ is_word_char c = true.
Proof.
  destruct c as [[] [] [] [] [] [] [] []]; intros H;
    try discriminate H; repeat split.
Qed.

Lemma in_lstrip_chars (c : ascii) (l : list ascii) :
  In c (Text.lstrip_chars l) -> In c l.
Proof.
  induction l as [|d l IH]; simpl; [tauto|].
  destruct (Text.is_space d); simpl; tauto.
Qed.

Lemma in_strip_chars (c : ascii) (l : list ascii) :
  In c (Text.strip_chars l) -> In c l.
Proof.
  unfold Text.strip_chars, Text.rstrip_chars. intros H.
  apply in_rev, in_lstrip_chars, in_rev, in_lstrip_chars in H. exact H.
Qed.

Lemma lstrip_chars_no_space (l : list ascii) :
  (forall c, In c l -> Text.is_space c = false) -> Text.lstrip_chars l = l.
Proof.
  destruct l as [|d l]; simpl; [reflexivity|].
  intros H. now rewrite (H d) by auto.
Qed.

Lemma strip_chars_no_space (l : list ascii) :
  (forall c, In c l -> Text.is_space c = false) -> Text.strip_chars l = l.
Proof.
  intros H. unfold Text.strip_chars, Text.rstrip_chars.
  rewrite (lstrip_chars_no_space l H), lstrip_chars_no_space.
  - apply rev_involutive.
  - intros c Hc. apply H. now apply in_rev.
Qed.

Lemma map_fixed {A : Type} (f : A -> A) (l : list A) :
  (forall a, In a l -> f a = a) -> map f l = l.
Proof.
  induction l as [|a l IH]; simpl; intros H; [reflexivity|].
  rewrite H, IH; auto.
Qed.

Lemma filter_all {A : Type} (p : A -> bool) (l : list A) :
  (forall a, In a l -> p a = true) -> filter p l = l.
Proof.
  induction l as [|a l IH]; simpl; intros H; [reflexivity|].
  rewrite H, IH; auto.
Qed.

Lemma standardize_chars (name : string) (c : ascii) :
  In c (list_ascii_of_string (standardize name)) ->
  is_plain (nat_of_ascii c) = true.
Proof.
  unfold standardize, remove_non_word, Text.strip, Text.lower.
  rewrite !list_ascii_of_string_of_list_ascii.
  intros H. apply filter_In in H. destruct H as [Hin Hw].
  apply in_strip_chars, in_map_iff in Hin. destruct Hin as (c0 & <- & _).
  now apply word_lower_char.
Qed.

(** X6.  A standardised column name consists of lower-case letters, digits
    and underscores only, and standardising it again changes nothing. *)
Theorem standardize_idempotent (name : string) :
  (forall c, In c (list_ascii_of_string (standardize name)) ->
             let n := nat_of_ascii c in
             (97 <= n <= 122 \/ 48 <= n <= 57 \/ n = 95)%nat)
  /\ standardize (standardize name) = standardize name.
Proof.
  split.
  - intros c Hc n. apply standardize_chars in Hc. fold n in Hc.
    rewrite !orb_true_iff, !andb_true_iff, !Nat.leb_le, Nat.eqb_eq in Hc.
    tauto.
  - pose proof (standardize_chars name) as H.
    set (l := list_ascii_of_string (standardize name)) in *.
    assert (E : standardize name = string_of_list_ascii l)
      by (unfold l; now rewrite string_of_list_ascii_of_string).
    rewrite E at 1. unfold standardize at 1.
    unfold remove_non_word, Text.strip, Text.lower.
    rewrite !list_ascii_of_string_of_list_ascii.
    rewrite (map_fixed Text.lower_char l)
      by (intros a Ha; apply plain_char, H, Ha).
    rewrite (strip_chars_no_space l)
      by (intros a Ha; apply plain_char, H, Ha).
    rewrite (filter_all is_word_char l)
      by (intros a Ha; apply plain_char, H, Ha).
    now rewrite E.
Qed.

End HeaderFacts.

(* ================================================================== *)
(** * Facts about the renaming of columns                              *)
(* ================================================================== *)

Module RenameFacts.
Import Header.


Lemma contains_In (c : string) (cols : list string) :
  contains c cols = true <-> In c cols.
Proof.
  unfold contains. rewrite existsb_exists. split.
  - intros (x & Hx & E). apply String.eqb_eq in E. now subst.
  - intros H. exists c. split; [exact H | apply String.eqb_refl].
Qed.

Lemma contains_rename_column (c old new : string) (cols : list string) :
  contains c (rename_column old new cols)
  = if String.eqb c new then contains new cols || contains old cols
    else if String.eqb c old then false
    else contains c cols.
Proof.
  apply eq_true_iff_eq. unfold rename_column.
  destruct (String.eqb_spec c new) as [-> | Hcn].
  - rewrite orb_true_iff, !contains_In, in_map_iff. split.
    + intros (x & Hx & Hin).
      destruct (String.eqb_spec x old); subst; auto.
    + intros [H | H]; [exists new | exists old]; (split; [|exact H]).
      * now destruct (String.eqb_spec new old).
      * now rewrite String.eqb_refl.
  - destruct (String.eqb_spec c old) as [-> | Hco].
    + split; [|discriminate]. rewrite contains_In, in_map_iff.
      intros (x & Hx & _). destruct (String.eqb_spec x old); congruence.
    + rewrite !contains_In, in_map_iff. split.
      * intros (x & Hx & Hin).
        destruct (String.eqb_spec x old); subst; congruence.
      * intros H. exists c. split; [|exact H].
        destruct (String.eqb_spec c old); congruence.
Qed.

(** One conditional renaming is a map over the labels. *)
Lemma conditional_rename (b : bool) (old new : string) (cols : list string) :
  (if b then rename_column old new cols else cols)
  = map (fun c => if b && String.eqb c old then new else c) cols.
Proof.
  destruct b; [reflexivity|]. simpl. now rewrite map_id.
Qed.

(** ** The renaming of lines 277-286, for any five distinct labels *)

Section Renaming.

(** [a] and [b] are renamed to [n], and [m] to [h]. *)
Variables a b n m h : string.
Hypothesis Hab : a <> b.
Hypothesis Han : a <> n.
Hypothesis Ham : a <> m.
Hypothesis Hah : a <> h.
Hypothesis Hbn : b <> n.
Hypothesis Hbm : b <> m.
Hypothesis Hbh : b <> h.
Hypothesis Hnm : n <> m.
Hypothesis Hnh : n <> h.
Hypothesis Hmh : m <> h.

Local Notation renamed cols :=
  (fold_left
     (fun cs entry =>
        if contains (fst entry) cs && negb (contains (snd entry) cs)
        then rename_column (fst entry) (snd entry) cs
        else cs)
     [(a, n); (m, h); (b, n)]
     (if negb (contains a cols) && contains b cols
      then rename_column b n cols
      else if contains a cols then rename_column a n cols else cols)).

(** Turns the distinctness of the labels into the values of their
    comparisons. *)
Ltac compare_labels :=
  repeat match goal with
         | H : ?x <> ?y |- _ =>
             lazymatch goal with
             | _ : String.eqb x y = false |- _ => fail
             | _ => idtac
             end;
             assert (String.eqb x y = false)
               by (apply String.eqb_neq; exact H);
             assert (String.eqb y x = false)
               by (apply String.eqb_neq; intros E; apply H; symmetry;
                   exact E)
         end.

(** Evaluates the tests of the renaming once the header's labels are
    known. *)
Ltac rename_steps cols :=
  repeat first
    [ rewrite contains_rename_column
    | match goal with
      | H : contains _ cols = _ |- _ => rewrite H
      end
    | match goal with
      | H : String.eqb _ _ = _ |- _ => rewrite H
      end
    | rewrite String.eqb_refl
    | progress cbn [negb andb orb fold_left fst snd] ].

Ltac rename_cases cols :=
  compare_labels;
  destruct (contains a cols) eqn:?;
  destruct (contains b cols) eqn:?;
  destruct (contains n cols) eqn:?;
  destruct (contains m cols) eqn:?;
  destruct (contains h cols) eqn:?;
  rename_steps cols.

Lemma contains_target_renamed (cols : list string) :
  contains n (renamed cols)
  = contains n cols || contains a cols || contains b cols.
Proof using Hab Han Ham Hah Hbn Hbm Hbh Hnm Hnh Hmh.
  rename_cases cols; reflexivity.
Qed.

Lemma contains_unrelated_renamed (c : string) (cols : list string) :
  ~ In c [a; b; m; n; h] ->
  contains c (renamed cols) = contains c cols.
Proof using Hab Han Ham Hah Hbn Hbm Hbh Hnm Hnh Hmh.
  intros Hc.
  assert (H1 : c <> a) by (intros ->; apply Hc; simpl; auto).
  assert (H2 : c <> b) by (intros ->; apply Hc; simpl; auto).
  assert (H3 : c <> m) by (intros ->; apply Hc; simpl; auto).
  assert (H4 : c <> n) by (intros ->; apply Hc; simpl; auto 6).
  assert (H5 : c <> h) by (intros ->; apply Hc; simpl; auto 6).
  clear Hc. rename_cases cols; reflexivity.
Qed.

Lemma renamed_labelwise (cols : list string) :
  exists f : string -> string,
    renamed cols = map f cols
    /\ forall c,
        f c = c \/ (c = a /\ f c = n) \/ (c = b /\ f c = n)
        \/ (c = m /\ f c = h).
Proof using Hab Han Ham Hah Hbn Hbm Hbh Hnm Hnh Hmh.
  rename_cases cols;
    unfold rename_column; rewrite ?map_map;
    (eexists; split;
     [ first [ reflexivity | symmetry; apply map_id ]
     | intros c; cbv beta;
       repeat match goal with
              | |- context [String.eqb c ?s] =>
                  destruct (String.eqb_spec c s) as [-> | ?];
                  repeat first
                    [ match goal with
                      | H : String.eqb _ _ = _ |- _ => rewrite H
                      end
                    | rewrite String.eqb_refl ]
              end;
       auto 6 ]).
Qed.

Lemma contains_first_renamed (cols : list string) :
  contains a (renamed cols) = false.
Proof using Hab Han Ham Hah Hbn Hbm Hbh Hnm Hnh Hmh.
  rename_cases cols; reflexivity.
Qed.

Lemma contains_second_renamed (cols : list string) :
  contains b cols = false -> contains b (renamed cols) = false.
Proof using Hab Han Ham Hah Hbn Hbm Hbh Hnm Hnh Hmh.
  intros Hb. rename_cases cols; try discriminate Hb; reflexivity.
Qed.

Lemma contains_third_renamed (cols : list string) :
  contains m (renamed cols) = true -> contains h (renamed cols) = true.
Proof using Hab Han Ham Hah Hbn Hbm Hbh Hnm Hnh Hmh.
  rename_cases cols; intros Hm; try discriminate Hm; reflexivity.
Qed.

(** A header in which nothing is left to rename is left as it is. *)
Lemma renamed_fixed (cols : list string) :
  contains a cols = false ->
  contains b cols = false ->
  (contains m cols = true -> contains h cols = true) ->
  renamed cols = cols.
Proof using Hab Han Ham Hah Hbn Hbm Hbh Hnm Hnh Hmh.
  intros Ha Hb Hm. rewrite Ha, Hb. cbn [negb andb fold_left fst snd].
  rewrite Ha. cbn [andb].
  destruct (contains m cols) eqn:Em.
  - rewrite (Hm eq_refl). cbn [negb andb]. now rewrite Hb.
  - cbn [andb]. now rewrite Hb.
Qed.

Lemma renamed_again (cols : list string) :
  contains b cols = false -> renamed (renamed cols) = renamed cols.
Proof using Hab Han Ham Hah Hbn Hbm Hbh Hnm Hnh Hmh.
  intros Hb. apply renamed_fixed.
  - apply contains_first_renamed.
  - now apply contains_second_renamed.
  - apply contains_third_renamed.
Qed.

End Renaming.

Lemma labels_distinct :
  "durationseconds" <> "durationseconds_1"
  /\ "durationseconds" <> "duration_seconds"
  /\ "durationseconds" <> "durationhoursmin"
  /\ "durationseconds" <> "duration_hours_min"
  /\ "durationseconds_1" <> "duration_seconds"
  /\ "durationseconds_1" <> "durationhoursmin"
  /\ "durationseconds_1" <> "duration_hours_min"
  /\ "duration_seconds" <> "durationhoursmin"
  /\ "duration_seconds" <> "duration_hours_min"
  /\ "durationhoursmin" <> "duration_hours_min".
Proof. repeat split; discriminate. Qed.

(** Applies a fact about the renaming of five distinct labels to the labels
    of [rename_map]. *)
Ltac with_labels lemma :=
  destruct labels_distinct
    as (H1 & H2 & H3 & H4 & H5 & H6 & H7 & H8 & H9 & H10);
  exact (lemma _ _ _ _ _ H1 H2 H3 H4 H5 H6 H7 H8 H9 H10).

Lemma contains_duration_seconds_renamed (cols : list string) :
  contains "duration_seconds" (rename_columns cols)
  = contains "duration_seconds" cols || contains "durationseconds" cols
    || contains "durationseconds_1" cols.
Proof.
  revert cols. with_labels contains_target_renamed.
Qed.

Lemma contains_other_renamed (c : string) (cols : list string) :
  ~ In c ["durationseconds"; "durationseconds_1"; "durationhoursmin";
          "duration_seconds"; "duration_hours_min"] ->
  contains c (rename_columns cols) = contains c cols.
Proof.
  revert c cols. with_labels contains_unrelated_renamed.
Qed.

(** X7.  Renaming works label by label and keeps the number and the order
    of the columns: a label is left as it is, or "durationseconds" or
    "durationseconds_1" becomes "duration_seconds", or "durationhoursmin"
    becomes "duration_hours_min". *)
Theorem rename_columns_labelwise (cols : list string) :
  exists f : string -> string,
    rename_columns cols = map f cols
    /\ forall c,
        f c = c
        \/ (c = "durationseconds" /\ f c = "duration_seconds")
        \/ (c = "durationseconds_1" /\ f c = "duration_seconds")
        \/ (c = "durationhoursmin" /\ f c = "duration_hours_min").
Proof.
  revert cols. with_labels renamed_labelwise.
Qed.

(** X8.  Which headers the run accepts: after standardising the labels, a
    header goes on to cleaning exactly when it has "datetime", "latitude"
    and "longitude" and one of "duration_seconds", "durationseconds" and
    "durationseconds_1"; the optional columns of the frame are then those
    labelled "shape", "country" and "state". *)
Theorem load_columns_accepts (header : list string) :
  let cols := standardize_columns header in
  load_columns header
  = if (contains "duration_seconds" cols || contains "durationseconds" cols
        || contains "durationseconds_1" cols)
       && contains "datetime" cols && contains "latitude" cols
       && contains "longitude" cols
    then Some {| has_shape := contains "shape" cols;
                 has_country := contains "country" cols;
                 has_state := contains "state" cols |}
    else None.
Proof.
  intros cols. unfold load_columns, required_columns_present. fold cols.
  cbn [filter].
  rewrite contains_duration_seconds_renamed.
  rewrite !(contains_other_renamed _ cols)
    by (simpl; intros H; repeat destruct H as [H | H]; try discriminate H;
        exact H).
  destruct (contains "duration_seconds" cols || contains "durationseconds" cols
            || contains "durationseconds_1" cols);
    destruct (contains "datetime" cols), (contains "latitude" cols),
      (contains "longitude" cols); reflexivity.
Qed.

(** X9.  On a header without the label "durationseconds_1", renaming a
    second time changes nothing. *)
Theorem rename_columns_again (cols : list string) :
  contains "durationseconds_1" cols = false ->
  rename_columns (rename_columns cols) = rename_columns cols.
Proof.
  revert cols. with_labels renamed_again.
Qed.

End RenameFacts.

(* ================================================================== *)
(** * More about [perform_eda]                                         *)
(* ================================================================== *)

Module RoundFacts.

Local Open Scope Q_scope.

Lemma floor_bounds (q : Q) :
  inject_Z (Qfloor q) <= q /\ q < inject_Z (Qfloor q) + 1.
Proof.
  split; [apply Qfloor_le|].
  pose proof (Qlt_floor q) as H. now rewrite inject_Z_plus in H.
Qed.

(** Rounding to the nearest integer, ties to even: which of the two
    neighbours is taken. *)
Lemma round_half_even_cases (q : Q) :
  let f := Qfloor q in
  (round_half_even q = f /\ q - inject_Z f <= 1 # 2
   /\ (q - inject_Z f == 1 # 2 -> Z.even f = true))
  \/ (round_half_even q = (f + 1)%Z /\ 1 # 2 <= q - inject_Z f
      /\ (q - inject_Z f == 1 # 2 -> Z.even f = false)).
Proof.
  intros f. unfold round_half_even. fold f.
  destruct (q - inject_Z f ?= 1 # 2) eqn:C.
  - apply Qeq_alt in C. destruct (Z.even f) eqn:E.
    + left. repeat split; auto. rewrite C. apply Qle_refl.
    + right. repeat split; auto. rewrite C. apply Qle_refl.
  - apply Qlt_alt in C. left. repeat split.
    + now apply Qlt_le_weak.
    + intros H. rewrite H in C. now apply Qlt_irrefl in C.
  - apply Qgt_alt in C. right. repeat split.
    + now apply Qlt_le_weak.
    + intros H. rewrite H in C. now apply Qlt_irrefl in C.
Qed.

Lemma round_half_even_mono (p q : Q) :
  p <= q -> (round_half_even p <= round_half_even q)%Z.
Proof.
  intros Hpq. pose proof (Qfloor_resp_le _ _ Hpq) as Hf.
  destruct (round_half_even_cases p) as [(-> & Hp & Ep) | (-> & Hp & Ep)];
    destruct (round_half_even_cases q) as [(-> & Hq & Eq) | (-> & Hq & Eq)];
    try lia.
  destruct (Z.eq_dec (Qfloor p) (Qfloor q)) as [E | E]; [|lia].
  exfalso. rewrite E in *.
  assert (H1 : p - inject_Z (Qfloor q) == 1 # 2) by (apply Qle_antisym; Lqa.lra).
  assert (H2 : q - inject_Z (Qfloor q) == 1 # 2) by (apply Qle_antisym; Lqa.lra).
  specialize (Ep H1). specialize (Eq H2). congruence.
Qed.

Lemma round_half_even_inject (z : Z) : round_half_even (inject_Z z) = z.
Proof.
  destruct (round_half_even_cases (inject_Z z)) as [(-> & _) | (_ & H & _)].
  - apply Qfloor_Z.
  - rewrite Qfloor_Z in H. exfalso. Lqa.lra.
Qed.

Lemma round_half_even_close (q : Q) :
  q - (1 # 2) <= inject_Z (round_half_even q)
  /\ inject_Z (round_half_even q) <= q + (1 # 2).
Proof.
  pose proof (floor_bounds q) as [H1 H2].
  destruct (round_half_even_cases q) as [(-> & H & _) | (-> & H & _)];
    rewrite ?inject_Z_plus; change (inject_Z 1) with 1%Q; split; Lqa.lra.
Qed.

Lemma round2_mono (p q : Q) : p <= q -> round2 p <= round2 q.
Proof.
  intros H. unfold round2, Qdiv. change (/ 100) with (1 # 100).
  apply Qmult_le_compat_r; [|discriminate].
  rewrite <- Zle_Qle. apply round_half_even_mono. Lqa.lra.
Qed.

Lemma round2_close (q : Q) :
  q - (1 # 200) <= round2 q /\ round2 q <= q + (1 # 200).
Proof.
  unfold round2, Qdiv. change (/ 100) with (1 # 100).
  pose proof (round_half_even_close (q * 100)) as [H1 H2]. split; Lqa.lra.
Qed.

(** Rounding keeps a percentage a percentage. *)
Lemma round2_percent (q : Q) : 0 <= q <= 100 -> 0 <= round2 q <= 100.
Proof.
  intros [H0 H1]. unfold round2, Qdiv. change (/ 100) with (1 # 100).
  assert (L : (0 <= round_half_even (q * 100))%Z).
  { rewrite <- (round_half_even_inject 0). apply round_half_even_mono.
    change (inject_Z 0) with 0. Lqa.lra. }
  assert (U : (round_half_even (q * 100) <= 10000)%Z).
  { rewrite <- (round_half_even_inject 10000). apply round_half_even_mono.
    change (inject_Z 10000) with 10000. Lqa.lra. }
  rewrite Zle_Qle in L, U.
  change (inject_Z 0) with 0 in L. change (inject_Z 10000) with 10000 in U.
  split; Lqa.lra.
Qed.

End RoundFacts.

Section EdaMore.

Import Series SeriesFacts.

Lemma perform_eda_statistics (df : Frame) :
  has_country (columns df) = true ->
  has_state (columns df) = true ->
  has_shape (columns df) = true ->
  exists s,
    perform_eda df = Some s
    /\ median_duration_seconds_overall s
       = float_or_none
           (if empty (rows df) then None
            else Some (median (map duration_seconds (rows df))))
    /\ median_duration_night_seconds s
       = float_or_none
           (let d := filter Float.notna
                       (map duration_seconds
                          (filter (fun r => is_night (hour r)) (rows df))) in
            if empty d then None else Some (median d))
    /\ median_duration_day_seconds s
       = float_or_none
           (let d := filter Float.notna
                       (map duration_seconds
                          (filter (fun r => negb (is_night (hour r)))
                                  (rows df))) in
            if empty d then None else Some (median d))
    /\ proportion_over_5_min_percent s
       = round2 (proportion_over 300 (rows df))
    /\ proportion_over_1_hour_percent s
       = round2 (proportion_over 3600 (rows df)).
Proof.
  intros Hc Hst Hsh. unfold perform_eda. cbv zeta.
  rewrite Hc, Hst, Hsh, idxmax_rename.
  destruct (sort_index (value_counts (map year (rows df)))) as [|by_ sy];
    destruct (sort_index (value_counts (map month (rows df)))) as [|bm sm];
    destruct (sort_index (value_counts (map hour (rows df)))) as [|bh sh];
    cbn [bind guard empty idxmax rename map option_map];
    (eexists; split; [reflexivity|]);
    cbn [median_duration_seconds_overall median_duration_night_seconds
         median_duration_day_seconds proportion_over_5_min_percent
         proportion_over_1_hour_percent];
    repeat split; reflexivity.
Qed.

Lemma perform_eda_raises (df : Frame) :
  has_country (columns df) && has_state (columns df)
  && has_shape (columns df) = false ->
  perform_eda df = None.
Proof.
  intros H. unfold perform_eda. cbv zeta. rewrite idxmax_rename.
  destruct (sort_index (value_counts (map year (rows df)))) as [|by_ sy];
    destruct (sort_index (value_counts (map month (rows df)))) as [|bm sm];
    destruct (sort_index (value_counts (map hour (rows df)))) as [|bh sh];
    cbn [bind guard empty idxmax rename map option_map];
    destruct (has_country (columns df)), (has_state (columns df)),
      (has_shape (columns df)); try discriminate H; reflexivity.
Qed.

(** X10.  [perform_eda] raises exactly when the frame lacks one of the
    columns "country", "state" and "shape", whatever its rows; on a frame
    that has the three it returns a summary, also when there is no row. *)
Theorem perform_eda_needs_optional_columns (df : Frame) :
  perform_eda df = None <->
  has_country (columns df) && has_state (columns df)
  && has_shape (columns df) = false.
Proof.
  split; [|apply perform_eda_raises].
  intros H.
  destruct (has_country (columns df)) eqn:Hc; [|reflexivity].
  destruct (has_state (columns df)) eqn:Hs; [|reflexivity].
  destruct (has_shape (columns df)) eqn:Hh; [|reflexivity].
  destruct (perform_eda_statistics df Hc Hs Hh) as (s & E & _). congruence.
Qed.

Lemma sorted_strictly {V : Type} (s : list (Z * V)) :
  StronglySorted (fun a b => fst a <= fst b) s ->
  NoDup (map fst s) ->
  StronglySorted (fun a b => fst a < fst b) s.
Proof.
  induction 1 as [|a l Hs IH Ha]; intros Hnd; constructor;
    inversion Hnd as [|? ? Hnin Hnd']; subst.
  - now apply IH.
  - rewrite Forall_forall in *. intros x Hx.
    specialize (Ha x Hx).
    assert (fst a <> fst x) by (intros E; apply Hnin; rewrite E;
                                now apply in_map).
    lia.
Qed.

(** X11.  The groupings of the summary come in ascending order of their
    keys, without repetition: the years and the hours increase strictly along
    [sightings_by_year] and [sightings_by_hour], and [sightings_by_month]
    lists the month names in the order of strictly increasing month
    numbers. *)
Theorem groupings_ascending (df : Frame) :
  has_country (columns df) = true ->
  has_state (columns df) = true ->
  has_shape (columns df) = true ->
  exists s by_month,
    perform_eda df = Some s
    /\ StronglySorted (fun a b => fst a < fst b) (sightings_by_year s)
    /\ StronglySorted (fun a b => fst a < fst b) (sightings_by_hour s)
    /\ StronglySorted (fun a b => fst a < fst b) by_month
    /\ sightings_by_month s
       = map (fun kv => (rename_label month_map (fst kv), snd kv)) by_month.
Proof.
  intros Hc Hst Hsh.
  destruct (perform_eda_groupings df Hc Hst Hsh)
    as (s & Hs & _ & Ey & Em & Eh & _).
  exists s, (sort_index (value_counts (map month (rows df)))).
  rewrite Ey, Em, Eh.
  split; [exact Hs|].
  repeat split;
    try (apply sorted_strictly;
         [apply sort_index_sorted | apply grouped_nodup]).
Qed.

(** ** Proportions *)

Lemma filter_length_mono {A : Type} (p q : A -> bool) (l : list A) :
  (forall a, p a = true -> q a = true) ->
  (List.length (filter p l) <= List.length (filter q l))%nat.
Proof.
  intros H. induction l as [|a l IH]; simpl; [lia|].
  destruct (p a) eqn:E.
  - rewrite (H a E). simpl. lia.
  - destruct (q a); simpl; lia.
Qed.

Lemma gtb_threshold (d : float) (t1 t2 : Z) :
  t1 <= t2 ->
  Float.gtb d (Float.of_Z t2) = true -> Float.gtb d (Float.of_Z t1) = true.
Proof.
  intros Ht. unfold Float.gtb, Float.of_Z.
  destruct d as [| | |q]; simpl; try discriminate; auto.
  rewrite !FloatFacts.Qltb_iff. intros H.
  apply Qle_lt_trans with (2 := H). now rewrite <- Zle_Qle.
Qed.

Lemma ratio_percent (c n : nat) :
  (c <= n)%nat -> (0 < n)%nat ->
  (0 <= inject_Z (Z.of_nat c) / inject_Z (Z.of_nat n) * 100 <= 100)%Q.
Proof.
  intros Hc Hn.
  assert (Hb : (0 < inject_Z (Z.of_nat n))%Q)
    by (change 0%Q with (inject_Z 0); rewrite <- Zlt_Qlt; lia).
  assert (Ha : (0 <= inject_Z (Z.of_nat c))%Q)
    by (change 0%Q with (inject_Z 0); rewrite <- Zle_Qle; lia).
  assert (Hab : (inject_Z (Z.of_nat c) <= inject_Z (Z.of_nat n))%Q)
    by (rewrite <- Zle_Qle; lia).
  pose proof (Qinv_lt_0_compat _ Hb) as Hi.
  assert (H1 : (inject_Z (Z.of_nat n) * / inject_Z (Z.of_nat n) == 1)%Q)
    by (apply Qmult_inv_r; intros E; rewrite E in Hb;
        now apply Qlt_irrefl in Hb).
  unfold Qdiv.
  pose proof (Qmult_le_compat_r _ _ _ Hab (Qlt_le_weak _ _ Hi)) as H2.
  pose proof (Qmult_le_0_compat _ _ Ha (Qlt_le_weak _ _ Hi)) as H3.
  rewrite H1 in H2. split; Lqa.lra.
Qed.

Lemma ratio_mono (c c' n : nat) :
  (c <= c')%nat -> (0 < n)%nat ->
  (inject_Z (Z.of_nat c) / inject_Z (Z.of_nat n) * 100
   <= inject_Z (Z.of_nat c') / inject_Z (Z.of_nat n) * 100)%Q.
Proof.
  intros Hc Hn.
  assert (Hb : (0 < inject_Z (Z.of_nat n))%Q)
    by (change 0%Q with (inject_Z 0); rewrite <- Zlt_Qlt; lia).
  assert (Hab : (inject_Z (Z.of_nat c) <= inject_Z (Z.of_nat c'))%Q)
    by (rewrite <- Zle_Qle; lia).
  pose proof (Qinv_lt_0_compat _ Hb) as Hi.
  unfold Qdiv.
  pose proof (Qmult_le_compat_r _ _ _ Hab (Qlt_le_weak _ _ Hi)) as H2.
  Lqa.lra.
Qed.

Lemma proportion_over_percent (t : Z) (l : list Row) :
  (0 <= proportion_over t l <= 100)%Q.
Proof.
  unfold proportion_over.
  destruct (0 <? List.length l)%nat eqn:E; [|split; discriminate].
  apply Nat.ltb_lt in E. apply ratio_percent; [|exact E].
  apply filter_length_le.
Qed.

Lemma proportion_over_anti (t1 t2 : Z) (l : list Row) :
  t1 <= t2 -> (proportion_over t2 l <= proportion_over t1 l)%Q.
Proof.
  intros Ht. unfold proportion_over.
  destruct (0 <? List.length l)%nat eqn:E; [|apply Qle_refl].
  apply Nat.ltb_lt in E. apply ratio_mono; [|exact E].
  apply filter_length_mono. intros r. now apply gtb_threshold.
Qed.

(** X12.  The two proportions of the summary are percentages, the one of
    sightings over an hour being at most the one of sightings over five
    minutes; each is within 0.005 of the exact percentage
    100 * count / total, and both are 0 for a frame without rows. *)
Theorem proportions_are_percentages (df : Frame) :
  has_country (columns df) = true ->
  has_state (columns df) = true ->
  has_shape (columns df) = true ->
  exists s,
    perform_eda df = Some s
    /\ (0 <= proportion_over_1_hour_percent s)%Q
    /\ (proportion_over_1_hour_percent s
        <= proportion_over_5_min_percent s)%Q
    /\ (proportion_over_5_min_percent s <= 100)%Q
    /\ (proportion_over 300 (rows df) - (1 # 200)
        <= proportion_over_5_min_percent s
        <= proportion_over 300 (rows df) + (1 # 200))%Q
    /\ (proportion_over 3600 (rows df) - (1 # 200)
        <= proportion_over_1_hour_percent s
        <= proportion_over 3600 (rows df) + (1 # 200))%Q
    /\ (rows df = [] ->
        (proportion_over_5_min_percent s == 0)%Q
        /\ (proportion_over_1_hour_percent s == 0)%Q).
Proof.
  intros Hc Hst Hsh.
  destruct (perform_eda_statistics df Hc Hst Hsh)
    as (s & Hs & _ & _ & _ & E5 & E1).
  exists s. rewrite E5, E1. split; [exact Hs|].
  split; [apply RoundFacts.round2_percent, proportion_over_percent|].
  split; [apply RoundFacts.round2_mono, proportion_over_anti; lia|].
  split; [apply RoundFacts.round2_percent, proportion_over_percent|].
  split; [apply RoundFacts.round2_close|].
  split; [apply RoundFacts.round2_close|].
  intros ->. split; vm_compute; reflexivity.
Qed.

(** ** Medians *)

Lemma median_in_range (l : list float) (lo hi : Q) :
  l <> [] ->
  (forall x, In x l -> exists q, x = Fin q /\ (lo < q)%Q /\ (q < hi)%Q) ->
  exists m, median l = Fin m /\ (lo < m)%Q /\ (m < hi)%Q.
Proof.
  intros Hne Hl. unfold median.
  rewrite (HeaderFacts.filter_all Float.notna l)
    by (intros x Hx; destruct (Hl x Hx) as (q & -> & _); reflexivity).
  pose proof (sort_by_perm Float.leb l) as Hp.
  set (v := sort_by Float.leb l) in *.
  assert (Hn : List.length v = List.length l) by now apply Permutation_length.
  assert (Hpos : (0 < List.length v)%nat).
  { rewrite Hn. destruct l; [congruence | simpl; lia]. }
  assert (Hv : forall i, (i < List.length v)%nat ->
                         exists q, nth i v NaN = Fin q
                                   /\ (lo < q)%Q /\ (q < hi)%Q).
  { intros i Hi. apply Hl. apply (Permutation_in _ Hp). now apply nth_In. }
  destruct (List.length v =? 0)%nat eqn:E0; [apply Nat.eqb_eq in E0; lia|].
  assert (Hhalf : (List.length v / 2 < List.length v)%nat)
    by (apply Nat.div_lt; lia).
  destruct (Nat.odd (List.length v)).
  - now apply Hv.
  - destruct (Hv (List.length v / 2 - 1)%nat) as (a & -> & Ha1 & Ha2); [lia|].
    destruct (Hv (List.length v / 2)%nat) as (b & -> & Hb1 & Hb2); [lia|].
    exists ((a + b) / 2)%Q. split; [reflexivity|].
    unfold Qdiv. change (/ 2)%Q with (1 # 2)%Q. split; Lqa.lra.
Qed.

(** The median that the summary reports for the rows selected by [p]. *)
Lemma selected_median (p : Row -> bool) (l : list Row) (lo hi : Q) :
  (forall row, In row l ->
               exists q, duration_seconds row = Fin q
                         /\ (lo < q)%Q /\ (q < hi)%Q) ->
  let d := filter Float.notna (map duration_seconds (filter p l)) in
  let r := float_or_none (if empty d then None else Some (median d)) in
  (r = None <-> forall row, In row l -> p row = false)
  /\ (forall x, r = Some x ->
                exists m, x = Fin m /\ (lo < m)%Q /\ (m < hi)%Q).
Proof.
  intros Hl d r.
  assert (Hd : forall x, In x d ->
                         exists q, x = Fin q /\ (lo < q)%Q /\ (q < hi)%Q).
  { intros x Hx. unfold d in Hx. apply filter_In in Hx.
    destruct Hx as [Hx _]. apply in_map_iff in Hx.
    destruct Hx as (row & <- & Hrow). apply filter_In in Hrow.
    apply Hl. tauto. }
  destruct (filter p l) as [|row0 l0] eqn:Ef.
  - assert (Hnone : forall row, In row l -> p row = false).
    { intros row Hrow. destruct (p row) eqn:Ep; [|reflexivity].
      assert (H : In row (filter p l)) by (apply filter_In; auto).
      rewrite Ef in H. destruct H. }
    subst r d. simpl. split; [tauto | discriminate].
  - assert (Hrow0 : In row0 l /\ p row0 = true).
    { apply filter_In. rewrite Ef. now left. }
    assert (Hne : d <> []).
    { unfold d. simpl. destruct (Hl row0 (proj1 Hrow0)) as (q & -> & _).
      simpl. discriminate. }
    destruct (median_in_range d lo hi Hne Hd) as (m & Em & Hm).
    assert (Er : r = Some (Fin m)).
    { unfold r. destruct d; [congruence|]. cbn [empty]. now rewrite Em. }
    rewrite Er. split.
    + split; [discriminate|]. intros H.
      rewrite (H row0) in Hrow0 by tauto. destruct Hrow0; discriminate.
    + intros x [= <-]. eauto.
Qed.

End EdaMore.

Section CleanSummary.

Variable to_datetime_text : string -> option Timestamp.
Variable to_numeric_text : string -> option float.

Local Notation clean_data' := (clean_data to_datetime_text to_numeric_text).

Lemma clean_duration (raw : RawFrame) (row : Row) :
  In row (rows (clean_data' raw)) ->
  exists q, duration_seconds row = Fin q /\ (0 < q)%Q /\ (q < 604800)%Q.
Proof.
  intros Hin. apply clean_data_rows in Hin.
  destruct Hin as (r & _ & E). apply clean_row_inv in E.
  destruct E as (_ & _ & _ & _ & _ & _ & _ & Hd & _).
  now apply FloatFacts.open_range in Hd.
Qed.

(** X13.  For a non-empty clean set the overall median duration of the
    summary is never null: it is a finite number strictly between 0 and
    604800. *)
Theorem clean_median_overall (raw : RawFrame) :
  has_country (raw_columns raw) = true ->
  has_state (raw_columns raw) = true ->
  has_shape (raw_columns raw) = true ->
  rows (clean_data' raw) <> [] ->
  exists s m,
    perform_eda (clean_data' raw) = Some s
    /\ median_duration_seconds_overall s = Some (Fin m)
    /\ (0 < m)%Q /\ (m < 604800)%Q.
Proof.
  intros Hc Hst Hsh Hne.
  destruct (perform_eda_statistics (clean_data' raw) Hc Hst Hsh)
    as (s & Hs & Em & _).
  destruct (selected_median (fun _ => true) (rows (clean_data' raw)) 0 604800
              (clean_duration raw)) as [Hnone Hsome].
  assert (Ef : forall l : list Row, filter (fun _ => true) l = l)
    by (intros l; apply HeaderFacts.filter_all; reflexivity).
  rewrite Ef in Hnone, Hsome. cbv zeta in Hnone, Hsome.
  assert (E : median_duration_seconds_overall s
              = float_or_none
                  (if Series.empty
                        (filter Float.notna
                           (map duration_seconds (rows (clean_data' raw))))
                   then None
                   else Some (Series.median
                                (filter Float.notna
                                   (map duration_seconds
                                      (rows (clean_data' raw))))))).
  { rewrite Em.
    rewrite (HeaderFacts.filter_all Float.notna)
      by (intros x Hx; apply in_map_iff in Hx;
          destruct Hx as (row & <- & Hrow);
          destruct (clean_duration raw row Hrow) as (q & -> & _);
          reflexivity).
    destruct (rows (clean_data' raw)); [congruence | reflexivity]. }
  destruct (median_duration_seconds_overall s) as [x|] eqn:Ex.
  - destruct (Hsome x) as (m & -> & Hm); [now rewrite <- E|].
    exists s, m. tauto.
  - exfalso. symmetry in E. pose proof (proj1 Hnone E) as Hall.
    destruct (rows (clean_data' raw)) as [|row l]; [congruence|].
    specialize (Hall row (or_introl eq_refl)). discriminate.
Qed.

(** X14.  For a clean set, the night median of the summary is null exactly
    when no record falls in the hours 18 to 23 or 0 to 5, and the day median
    exactly when every record does; a median that is not null is a finite
    number strictly between 0 and 604800. *)
Theorem clean_median_night_day (raw : RawFrame) :
  has_country (raw_columns raw) = true ->
  has_state (raw_columns raw) = true ->
  has_shape (raw_columns raw) = true ->
  exists s,
    perform_eda (clean_data' raw) = Some s
    /\ (median_duration_night_seconds s = None <->
        forall row, In row (rows (clean_data' raw)) ->
                    is_night (hour row) = false)
    /\ (median_duration_day_seconds s = None <->
        forall row, In row (rows (clean_data' raw)) ->
                    is_night (hour row) = true)
    /\ (forall x, median_duration_night_seconds s = Some x
                  \/ median_duration_day_seconds s = Some x ->
                  exists m, x = Fin m /\ (0 < m)%Q /\ (m < 604800)%Q).
Proof.
  intros Hc Hst Hsh.
  destruct (perform_eda_statistics (clean_data' raw) Hc Hst Hsh)
    as (s & Hs & _ & En & Ed & _).
  destruct (selected_median (fun r => is_night (hour r))
              (rows (clean_data' raw)) 0 604800 (clean_duration raw))
    as [Hn1 Hn2].
  destruct (selected_median (fun r => negb (is_night (hour r)))
              (rows (clean_data' raw)) 0 604800 (clean_duration raw))
    as [Hd1 Hd2].
  cbv zeta in Hn1, Hn2, Hd1, Hd2, En, Ed. rewrite <- En in Hn1, Hn2.
  rewrite <- Ed in Hd1, Hd2.
  exists s. split; [exact Hs|]. split; [exact Hn1|]. split.
  - rewrite Hd1. split; intros H row Hrow; specialize (H row Hrow).
    + now apply negb_false_iff in H.
    + now rewrite H.
  - intros x [H | H]; auto.
Qed.

End CleanSummary.

(* ================================================================== *)
(** * More about [export_globe_data] and the driver                    *)
(* ================================================================== *)

Section GlobeMore.

Local Open Scope R_scope.

Lemma clip_range (x : float) (n : Q) :
  Float.clip min_duration max_duration_cap x = Some n ->
  1 <= Q2R n <= 86400.
Proof.
  assert (H1 : (1 <= max_duration_cap)%Q) by (unfold Qle; simpl; lia).
  intros H.
  assert (Hn : (1 <= n)%Q /\ (n <= max_duration_cap)%Q).
  { unfold min_duration in H.
    destruct x as [| | |q]; simpl in H; try discriminate H;
      injection H as <-; split;
      auto using Q.le_min_r, Q.min_glb, Q.le_max_r, Qle_refl. }
  destruct Hn as [Hlo Hhi].
  apply Qle_Rle in Hlo, Hhi.
  rewrite RMicromega.Q2R_1 in Hlo. rewrite Q2R_max_duration_cap in Hhi.
  split; assumption.
Qed.

Lemma ln_86400_pos : 0 < ln 86400.
Proof. rewrite <- ln_1. apply ln_increasing; Lra.lra. Qed.

Lemma log_norm_duration_range (n : Q) :
  1 <= Q2R n <= 86400 -> 0 <= log_norm_duration n <= 1.
Proof.
  intros [Hlo Hhi]. rewrite log_norm_duration_eq.
  pose proof ln_86400_pos as Hln. split.
  - apply Rmult_le_pos; [|left; now apply Rinv_0_lt_compat].
    rewrite <- ln_1. apply ln_le; Lra.lra.
  - apply (Rmult_le_reg_r (ln 86400)); [exact Hln|].
    unfold Rdiv.
    rewrite Rmult_assoc, Rinv_l, Rmult_1_r, Rmult_1_l by Lra.lra.
    apply ln_le; Lra.lra.
Qed.

Lemma magnitude_range (globe_df : list Row) (row : Row) :
  0.03 <= magnitude globe_df row <= 0.28.
Proof.
  unfold magnitude.
  destruct (negb _); [|Lra.lra].
  destruct (Float.clip _ _ _) as [n|] eqn:E; [|Lra.lra].
  pose proof (log_norm_duration_range n (clip_range _ _ E)). Lra.lra.
Qed.

(** X15.  Every exported point carries the position of a record of the
    frame it was made from, the altitude 0.005 and the fixed colour; its
    radius is the record's magnitude and lies in [0.03, 0.28], whatever the
    duration, so the floor of 0.01 at line 234 never takes effect. *)
Theorem output_data_points (globe_df : list Row) (p : GlobePoint) :
  In p (output_data globe_df) ->
  exists row,
    In row globe_df
    /\ lat p = latitude row /\ lng p = longitude row
    /\ alt p = (5 # 1000)%Q /\ color p = "rgba(255, 255, 0, 0.7)"
    /\ radius p = magnitude globe_df row
    /\ 0.03 <= radius p <= 0.28.
Proof.
  unfold output_data. intros H. apply in_map_iff in H.
  destruct H as (row & <- & Hrow). exists row.
  pose proof (magnitude_range globe_df row) as Hm.
  cbn [lat lng alt color radius].
  assert (E : Rmax 0.01 (magnitude globe_df row) = magnitude globe_df row)
    by (apply Rmax_right; Lra.lra).
  rewrite E. repeat split; tauto.
Qed.

Lemma clamp_mono (p q : Q) :
  (p <= q)%Q -> (Qmin (Qmax p 1) 86400 <= Qmin (Qmax q 1) 86400)%Q.
Proof.
  intros H. apply Q.min_le_compat_r. now apply Q.max_le_compat_r.
Qed.

(** X16.  Within one frame a longer duration never gives a smaller
    magnitude. *)
Theorem magnitude_monotone (globe_df : list Row) (r1 r2 : Row) (q1 q2 : Q) :
  duration_seconds r1 = Fin q1 ->
  duration_seconds r2 = Fin q2 ->
  (q1 <= q2)%Q ->
  magnitude globe_df r1 <= magnitude globe_df r2.
Proof.
  intros H1 H2 Hq. unfold magnitude.
  destruct (negb _); [|Lra.lra]. rewrite H1, H2.
  destruct (normalized_duration q1) as (n1 & -> & Hn1).
  destruct (normalized_duration q2) as (n2 & -> & Hn2).
  rewrite !log_norm_duration_eq.
  rewrite (Qeq_eqR _ _ Hn1), (Qeq_eqR _ _ Hn2).
  pose proof ln_86400_pos as Hln.
  pose proof (clamped_range q1) as [Hlo _].
  assert (Hle : ln (Q2R (Qmin (Qmax q1 1) 86400))
                <= ln (Q2R (Qmin (Qmax q2 1) 86400))).
  { apply ln_le; [Lra.lra|]. apply Qle_Rle. now apply clamp_mono. }
  assert (Hdiv : ln (Q2R (Qmin (Qmax q1 1) 86400)) / ln 86400
                 <= ln (Q2R (Qmin (Qmax q2 1) 86400)) / ln 86400).
  { unfold Rdiv. apply Rmult_le_compat_r; [|exact Hle].
    left. now apply Rinv_0_lt_compat. }
  Lra.lra.
Qed.

(** X17.  The magnitude saturates: for a record of the frame that lasts one
    second or less it is 0.03, and for one that lasts a day or more it is
    0.28. *)
Theorem magnitude_saturates (globe_df : list Row) (row : Row) (q : Q) :
  In row globe_df ->
  duration_seconds row = Fin q ->
  ((q <= 1)%Q -> magnitude globe_df row = 0.03)
  /\ ((86400 <= q)%Q -> magnitude globe_df row = 0.28).
Proof.
  intros Hin Hd.
  assert (Hm : magnitude globe_df row
               = 0.03 + ln (Q2R (Qmin (Qmax q 1) 86400)) / ln 86400 * 0.25).
  { unfold magnitude.
    rewrite (duration_column_not_empty globe_df row Hin)
      by (rewrite Hd; reflexivity).
    cbn [negb]. rewrite Hd.
    destruct (normalized_duration q) as (n & -> & Hn).
    rewrite log_norm_duration_eq. now rewrite (Qeq_eqR _ _ Hn). }
  pose proof ln_86400_pos as Hln.
  rewrite Hm. split; intros Hq.
  - assert (E : (Qmin (Qmax q 1) 86400 == 1)%Q).
    { rewrite (Q.max_r q 1 Hq). apply Q.min_l. unfold Qle; simpl; lia. }
    rewrite (Qeq_eqR _ _ E), RMicromega.Q2R_1, ln_1.
    unfold Rdiv. rewrite Rmult_0_l. Lra.lra.
  - assert (E : (Qmin (Qmax q 1) 86400 == 86400)%Q).
    { apply Q.min_r. apply Qle_trans with (1 := Hq). apply Q.le_max_l. }
    rewrite (Qeq_eqR _ _ E).
    replace (Q2R 86400) with 86400 by (unfold Q2R; simpl; Lra.lra).
    unfold Rdiv. rewrite Rinv_r by Lra.lra. Lra.lra.
Qed.

End GlobeMore.

Section MainMore.

Variable to_datetime_text : string -> option Timestamp.
Variable to_numeric_text : string -> option float.
Variable sample : nat -> Z -> list Row -> list Row.

Local Notation clean_data' := (clean_data to_datetime_text to_numeric_text).
Local Notation main' := (main to_datetime_text to_numeric_text sample).

Lemma clean_position (raw : RawFrame) (row : Row) :
  In row (rows (clean_data' raw)) ->
  exists la lo, latitude row = Fin la /\ longitude row = Fin lo
                /\ (-90 <= la)%Q /\ (la <= 90)%Q
                /\ (-180 <= lo)%Q /\ (lo <= 180)%Q.
Proof.
  intros Hin. apply clean_data_rows in Hin.
  destruct Hin as (r & _ & E). apply clean_row_inv in E.
  destruct E as (_ & _ & _ & _ & _ & _ & _ & _ & Hla & Hlo & _).
  apply FloatFacts.closed_range in Hla. destruct Hla as (la & Ela & H1 & H2).
  apply FloatFacts.closed_range in Hlo. destruct Hlo as (lo & Elo & H3 & H4).
  exists la, lo. auto 10.
Qed.

(** X18.  From cleaning to the globe: when the sampler only returns records
    of the frame it samples, every point exported for a clean set lies on
    the globe, with a finite latitude in [-90, 90] and a finite longitude in
    [-180, 180], and no more than 10,000 points are exported when the
    sampler returns as many records as it is asked for. *)
Theorem clean_globe_points (raw : RawFrame) :
  (forall l : list Row,
      (MAX_POINTS_ON_GLOBE <= List.length l)%nat ->
      List.length (sample MAX_POINTS_ON_GLOBE 42 l) = MAX_POINTS_ON_GLOBE
      /\ forall r, In r (sample MAX_POINTS_ON_GLOBE 42 l) -> In r l) ->
  (List.length (export_globe_data sample (clean_data' raw)) <= 10000)%nat
  /\ forall p,
      In p (export_globe_data sample (clean_data' raw)) ->
      exists la lo, lat p = Fin la /\ lng p = Fin lo
                    /\ (-90 <= la)%Q /\ (la <= 90)%Q
                    /\ (-180 <= lo)%Q /\ (lo <= 180)%Q.
Proof.
  intros Hsample. change 10000%nat with MAX_POINTS_ON_GLOBE.
  unfold export_globe_data.
  destruct (rows (clean_data' raw)) as [|r0 l0] eqn:El.
  { simpl. split; [lia | tauto]. }
  cbn [Series.empty]. rewrite <- El.
  destruct (MAX_POINTS_ON_GLOBE <? List.length (rows (clean_data' raw)))%nat
    eqn:E.
  - apply Nat.ltb_lt in E.
    destruct (Hsample (rows (clean_data' raw))) as [Hlen Hin]; [lia|].
    split.
    + unfold output_data. rewrite length_map, Hlen. lia.
    + intros p Hp. unfold output_data in Hp. apply in_map_iff in Hp.
      destruct Hp as (row & <- & Hrow). cbn [lat lng].
      apply clean_position with (raw := raw). now apply Hin.
  - apply Nat.ltb_ge in E. split.
    + unfold output_data. now rewrite length_map.
    + intros p Hp. unfold output_data in Hp. apply in_map_iff in Hp.
      destruct Hp as (row & <- & Hrow). cbn [lat lng].
      now apply clean_position with (raw := raw).
Qed.

(** X19.  A run on an input frame (one column for each label) whose clean
    set is not empty.  If the input lacks one of the columns "shape",
    "country" and "state", the run raises and writes nothing.  If the three
    columns are there, it writes the summary of the clean set, whose
    [total_sightings] entry is the number of clean records, and the globe
    points of the clean set. *)
Theorem main_outcome (raw : RawFrame) :
  rows (clean_data' raw) <> [] ->
  (has_country (raw_columns raw) && has_state (raw_columns raw)
   && has_shape (raw_columns raw) = false ->
   main' raw = None)
  /\ (has_country (raw_columns raw) && has_state (raw_columns raw)
      && has_shape (raw_columns raw) = true ->
      exists s,
        perform_eda (clean_data' raw) = Some s
        /\ main' raw
           = Some (json_of_summary s,
                   export_globe_data sample (clean_data' raw))
        /\ json_field "total_sightings" (json_of_summary s)
           = Some (JInt (Z.of_nat (List.length (rows (clean_data' raw)))))).
Proof.
  assert (Hcols : columns (clean_data' raw) = raw_columns raw) by reflexivity.
  intros Hne. split.
  - intros Ec. unfold main.
    destruct (rows (clean_data' raw)) as [|r0 l0] eqn:El; [congruence|].
    cbn [Series.empty].
    rewrite <- Hcols in Ec. now rewrite (perform_eda_raises _ Ec).
  - intros Ec.
    apply andb_true_iff in Ec. destruct Ec as [Ec Eh].
    apply andb_true_iff in Ec. destruct Ec as [Ec Es].
    rewrite <- Hcols in Ec, Es, Eh.
    destruct (perform_eda_groupings _ Ec Es Eh) as (s & E & Et & _).
    exists s. split; [exact E|]. split.
    + unfold main.
      destruct (rows (clean_data' raw)); [congruence|].
      cbn [Series.empty]. now rewrite E.
    + cbn. now rewrite Et.
Qed.

End MainMore.

(* ================================================================== *)
(** * Facts about the rankings                                         *)
(* ================================================================== *)

Module RankingFacts.
Import Ranking.

(** ** Counting texts *)

Lemma text_get_tally (k k' : string) (s : list (string * nat)) :
  get (tally k s) k' = if String.eqb k k' then S (get s k') else get s k'.
Proof.
  induction s as [|[k0 c] s IH]; simpl.
  - reflexivity.
  - destruct (String.eqb_spec k0 k) as [-> | E0]; simpl.
    + now destruct (String.eqb k k').
    + rewrite IH. destruct (String.eqb_spec k0 k') as [-> | E1];
        [|reflexivity].
      destruct (String.eqb_spec k k'); congruence.
Qed.

Lemma text_keys_tally (k k' : string) (s : list (string * nat)) :
  In k' (map fst (tally k s)) <-> k' = k \/ In k' (map fst s).
Proof.
  induction s as [|[k0 c] s IH]; simpl.
  - intuition.
  - destruct (String.eqb_spec k0 k) as [-> | E0]; simpl.
    + intuition.
    + rewrite IH. intuition.
Qed.

Lemma text_nodup_tally (k : string) (s : list (string * nat)) :
  NoDup (map fst s) -> NoDup (map fst (tally k s)).
Proof.
  induction s as [|[k0 c] s IH]; simpl; intros H.
  - repeat constructor. intros [].
  - destruct (String.eqb_spec k0 k) as [-> | E0]; simpl; [exact H|].
    inversion H as [|? ? Hnin Hnd]; subst. constructor; [|now apply IH].
    rewrite text_keys_tally. intros [-> | Hin]; tauto.
Qed.

Lemma text_fold_tally (l : list string) (s : list (string * nat)) :
  let s' := fold_left (fun s k => tally k s) l s in
  (forall k, get s' k = (get s k + count_occ string_dec l k)%nat)
  /\ (forall k, In k (map fst s') <-> In k (map fst s) \/ In k l)
  /\ (NoDup (map fst s) -> NoDup (map fst s')).
Proof.
  revert s. induction l as [|x l IH]; intros s; simpl.
  - repeat split; intros; auto; try tauto; lia.
  - destruct (IH (tally x s)) as (Hg & Hk & Hn). repeat split.
    + intros k. rewrite Hg, text_get_tally.
      destruct (string_dec x k) as [-> | Hne].
      * rewrite String.eqb_refl. lia.
      * apply String.eqb_neq in Hne. rewrite Hne. lia.
    + rewrite Hk, text_keys_tally. intuition.
    + rewrite Hk, text_keys_tally. intuition.
    + intros H. apply Hn, text_nodup_tally, H.
Qed.

Lemma text_get_in (s : list (string * nat)) (k : string) (c : nat) :
  NoDup (map fst s) -> In (k, c) s -> get s k = c.
Proof.
  induction s as [|[k0 c0] s IH]; simpl; intros Hnd Hin; [tauto|].
  inversion Hnd as [|? ? Hnin Hnd']; subst.
  destruct Hin as [[= -> ->] | Hin].
  - now rewrite String.eqb_refl.
  - destruct (String.eqb_spec k0 k) as [-> | E]; [|now apply IH].
    exfalso. apply Hnin. apply in_map_iff. exists (k, c). auto.
Qed.

Lemma text_in_get (s : list (string * nat)) (k : string) :
  In k (map fst s) -> In (k, get s k) s.
Proof.
  induction s as [|[k0 c0] s IH]; simpl; [tauto|].
  destruct (String.eqb_spec k0 k) as [-> | E]; [auto|].
  intros [-> | Hin]; [congruence | auto].
Qed.

Lemma counts_nodup (col : list string) : NoDup (map fst (counts col)).
Proof. apply (text_fold_tally col []). constructor. Qed.

Lemma counts_in (col : list string) (k : string) (c : nat) :
  In (k, c) (counts col) <-> In k col /\ c = count_occ string_dec col k.
Proof.
  destruct (text_fold_tally col []) as (Hg & Hk & _). fold (counts col) in *.
  split.
  - intros Hin. split.
    + destruct (Hk k) as [H _]. destruct H as [[] | H]; [|exact H].
      apply in_map_iff. exists (k, c). auto.
    + rewrite <- (text_get_in _ _ _ (counts_nodup col) Hin). apply Hg.
  - intros [Hin ->]. specialize (Hg k). simpl in Hg. rewrite <- Hg.
    apply text_in_get. apply Hk. auto.
Qed.

(** ** The head of a descending arrangement *)

Lemma sorted_app {A : Type} (R : A -> A -> Prop) (l1 l2 : list A) :
  StronglySorted R (l1 ++ l2)%list ->
  StronglySorted R l1 /\ forall x y, In x l1 -> In y l2 -> R x y.
Proof.
  induction l1 as [|a l1 IH]; simpl; intros H.
  - split; [constructor | intros x y []].
  - inversion H as [|? ? Hs Ha]; subst. destruct (IH Hs) as [Hs1 Hc].
    rewrite Forall_forall in Ha. split.
    + constructor; [exact Hs1|]. rewrite Forall_forall.
      intros x Hx. apply Ha. apply in_or_app. now left.
    + intros x y [<- | Hx] Hy; [|now apply Hc].
      apply Ha. apply in_or_app. now right.
Qed.

(** The first [n] entries of the counts of a column, put in descending
    order twice, rank its [n] most frequent texts. *)
Lemma head_is_top (f g : list (string * nat) -> list (string * nat))
  (n : nat) (col : list string) :
  descending f -> descending g ->
  is_top n col (firstn n (g (f (counts col)))).
Proof.
  intros Hf Hg.
  destruct (Hf (counts col)) as [Pf _].
  destruct (Hg (f (counts col))) as [Pg Sg].
  set (s := g (f (counts col))) in *.
  assert (Ps : Permutation s (counts col)) by now rewrite Pg.
  assert (Hin : forall k c, In (k, c) s <->
                            In k col /\ c = count_occ string_dec col k).
  { intros k c. rewrite <- counts_in.
    split; apply Permutation_in; [exact Ps | now symmetry]. }
  assert (Hnd : NoDup (map fst s)).
  { apply (Permutation_NoDup (l := map fst (counts col))).
    - apply Permutation_map. now symmetry.
    - apply counts_nodup. }
  rewrite <- (firstn_skipn n s) in Sg, Hnd.
  apply sorted_app in Sg. destruct Sg as [S1 Hcross].
  rewrite map_app in Hnd.
  unfold is_top.
  split; [apply firstn_le_length|].
  split; [now apply NoDup_app_remove_r in Hnd|].
  split.
  { intros k c H. apply Hin. rewrite <- (firstn_skipn n s).
    apply in_or_app. now left. }
  split; [exact S1|].
  intros k Hk Hnot.
  assert (Hk' : In (k, count_occ string_dec col k) (skipn n s)).
  { assert (H : In (k, count_occ string_dec col k) s) by (apply Hin; auto).
    rewrite <- (firstn_skipn n s) in H. apply in_app_iff in H.
    destruct H as [H | H]; [|exact H].
    exfalso. apply Hnot. apply in_map_iff. eexists. split; [|exact H].
    reflexivity. }
  split.
  - destruct (Nat.le_gt_cases (List.length s) n) as [Hle | Hgt].
    + rewrite skipn_all2 in Hk' by exact Hle. destruct Hk'.
    + rewrite length_firstn. lia.
  - intros e He. exact (Hcross e _ He Hk').
Qed.

End RankingFacts.

Section RankingTheorems.

Import Ranking RankingFacts.

Variable sort_values : list (string * nat) -> list (string * nat).
Variable nlargest_order : list (string * nat) -> list (string * nat).
Hypothesis sort_values_descending : descending sort_values.
Hypothesis nlargest_descending : descending nlargest_order.

Local Notation nlargest' := (nlargest nlargest_order).
Local Notation value_counts' := (value_counts_text sort_values).

Lemma is_top_nil (n : nat) : is_top n [] [].
Proof.
  unfold is_top. simpl. repeat split; try constructor; try tauto; lia.
Qed.

Lemma ranking_is_top (n : nat) (col : list text_cell) :
  is_top n (present col) (nlargest' n (value_counts' col)).
Proof.
  unfold nlargest, value_counts_text.
  now apply RankingFacts.head_is_top.
Qed.

(** The texts of a selected column, counted over the rows. *)
Lemma present_count (sel : Row -> bool) (proj : Row -> text_cell)
  (l : list Row) (k : string) :
  count_occ string_dec (present (map proj (filter sel l))) k
  = List.length (filter (fun r => sel r && eq_text (proj r) k) l).
Proof.
  induction l as [|r l IH]; simpl; [reflexivity|].
  destruct (sel r); simpl; [|exact IH].
  destruct (proj r) as [t|]; simpl; [|exact IH].
  destruct (string_dec t k) as [-> | Hne].
  - rewrite String.eqb_refl. simpl. now rewrite IH.
  - apply String.eqb_neq in Hne. now rewrite Hne.
Qed.

Lemma filter_ext_length {A : Type} (p q : A -> bool) (l : list A) :
  (forall a, p a = q a) ->
  List.length (filter p l) = List.length (filter q l).
Proof.
  intros H. now rewrite (filter_ext p q H).
Qed.

Lemma filter_none_length {A : Type} (p : A -> bool) (l : list A) :
  (forall a, p a = false) -> List.length (filter p l) = 0%nat.
Proof.
  intros H. induction l as [|a l IH]; simpl; [reflexivity|].
  now rewrite H.
Qed.

(** A ranking keeps its pairs and their order as a dict. *)
Lemma is_top_dict (n : nat) (col : list string) (top : list (string * nat)) :
  is_top n col top -> Series.to_dict String.eqb top = top.
Proof.
  intros (_ & Hnd & _).
  apply SeriesFacts.to_dict_nodup; [|exact Hnd].
  intros x y. apply String.eqb_eq.
Qed.

(** Counting a text among the cells that are present and differ from the
    sentinel [skip]. *)
Lemma count_without (skip : string) (also : Row -> bool)
  (proj : Row -> text_cell) (l : list Row) (k : string) :
  count_occ string_dec
    (present
       (map proj
            (filter (fun r => also r && notna (proj r)
                              && ne_text (proj r) skip) l))) k
  = if String.eqb k skip then 0%nat
    else List.length (filter (fun r => also r && eq_text (proj r) k) l).
Proof.
  rewrite present_count.
  destruct (String.eqb_spec k skip) as [-> | Hne].
  - apply filter_none_length. intros r. unfold ne_text.
    destruct (eq_text (proj r) skip); [|apply andb_false_r].
    now rewrite andb_false_r.
  - apply filter_ext_length. intros r. unfold ne_text, notna, eq_text.
    destruct (proj r) as [t|]; [|now rewrite !andb_false_r].
    destruct (String.eqb_spec t k) as [-> | Htk];
      [|now rewrite !andb_false_r].
    apply String.eqb_neq in Hne. rewrite Hne. now rewrite !andb_true_r.
Qed.

Lemma ranking_or_empty (n : nat) (col : list text_cell) :
  is_top n (present col)
    (if Series.empty col then [] else nlargest' n (value_counts' col)).
Proof.
  destruct col as [|c col]; [apply is_top_nil | apply ranking_is_top].
Qed.



Lemma top_key_count (n : nat) (col : list string) (top : list (string * nat))
  (e : string * nat) :
  is_top n col top -> In e top ->
  In (fst e) col /\ snd e = count_occ string_dec col (fst e).
Proof.
  intros (_ & _ & Hin & _) He. apply Hin. now destruct e.
Qed.

(** No text of the column occurs more often than the head of a ranking,
    and none but the head more often than its second entry. *)
Lemma top_bound (n : nat) (col : list string) (pre rest : list (string * nat))
  (e : string * nat) (k : string) :
  is_top n col (pre ++ e :: rest)%list ->
  ~ In k (map fst pre) ->
  (count_occ string_dec col k <= snd e)%nat.
Proof.
  intros Ht Hk. pose proof Ht as (_ & _ & Hin & Hs & Hout).
  destruct (in_dec string_dec k col) as [Hcol | Hcol].
  - destruct (in_dec string_dec k (map fst (pre ++ e :: rest)%list))
      as [Hkey | Hkey].
    + apply in_map_iff in Hkey. destruct Hkey as ([k' c] & Ek & Hkc).
      simpl in Ek. subst k'. destruct (Hin k c Hkc) as [_ Ec].
      rewrite <- Ec.
      apply in_app_iff in Hkc. destruct Hkc as [Hkc | [He | Hkc]].
      * exfalso. apply Hk. apply in_map_iff. exists (k, c). auto.
      * subst e. simpl. lia.
      * apply SeriesFacts.sorted_after in Hs. rewrite Forall_forall in Hs.
        exact (Hs _ Hkc).
    + destruct (Hout k Hcol Hkey) as [_ H]. apply H. apply in_elt.
  - apply (count_occ_not_In string_dec) in Hcol. rewrite Hcol. lia.
Qed.

Lemma top_shapes_series_top (df : Frame) :
  has_shape (columns df) = true ->
  exists top,
    top_shapes_series sort_values nlargest_order df = Some top
    /\ is_top 10 (present (map shape (valid_shapes_df df))) top.
Proof.
  intros Hsh. unfold top_shapes_series. rewrite Hsh. cbn [bind guard].
  eexists. split; [reflexivity|].
  pose proof (ranking_or_empty 10 (map shape (valid_shapes_df df))) as H.
  destruct (valid_shapes_df df); exact H.
Qed.


(** ** The median durations by shape *)

Lemma fold_left_over_map {A B C : Type} (g : A -> C -> A) (h : B -> C)
  (l : list B) (a : A) :
  fold_left g (map h l) a = fold_left (fun a x => g a (h x)) l a.
Proof.
  revert a. induction l as [|x l IH]; intros a; simpl; [reflexivity|].
  apply IH.
Qed.

(** Filling a dict key by key, the keys being distinct. *)
Lemma dict_of_keys {V : Type} (f : string -> V) (keys : list string) :
  NoDup keys ->
  fold_left (fun d s => Series.dict_set String.eqb s (f s) d) keys []
  = map (fun s => (s, f s)) keys.
Proof.
  intros Hnd.
  transitivity
    (fold_left (fun d kv => Series.dict_set String.eqb (fst kv) (snd kv) d)
               (map (fun s => (s, f s)) keys) []).
  - now rewrite fold_left_over_map.
  - rewrite (SeriesFacts.fold_dict_set String.eqb).
    + reflexivity.
    + intros x y. apply String.eqb_eq.
    + simpl. rewrite map_map. simpl. now rewrite map_id.
Qed.

Lemma present_in (l : list text_cell) (k : string) :
  In k (present l) <-> In (Some k) l.
Proof.
  induction l as [|[t|] l IH]; simpl; [tauto| |].
  - rewrite IH. split; intros [H | H]; auto; left; congruence.
  - rewrite IH. split; [auto | intros [H | H]; [discriminate | exact H]].
Qed.

Lemma firstn_in {A : Type} (n : nat) (l : list A) (a : A) :
  In a (firstn n l) -> In a l.
Proof.
  intros H. rewrite <- (firstn_skipn n l). apply in_or_app. now left.
Qed.

Lemma firstn_nodup {A : Type} (n : nat) (l : list A) :
  NoDup l -> NoDup (firstn n l).
Proof.
  intros H. rewrite <- (firstn_skipn n l) in H.
  now apply NoDup_app_remove_r in H.
Qed.

Variable to_datetime_text : string -> option Timestamp.
Variable to_numeric_text : string -> option float.

Local Notation clean_data' := (clean_data to_datetime_text to_numeric_text).

Lemma round2_duration (m : Q) :
  (0 < m)%Q -> (m < 604800)%Q ->
  (0 <= round2 m)%Q /\ (round2 m <= 604800)%Q.
Proof.
  intros H0 H1. split.
  - apply Qle_trans with (y := round2 0).
    + vm_compute. discriminate.
    + apply RoundFacts.round2_mono. now apply Qlt_le_weak.
  - apply Qle_trans with (y := round2 604800).
    + apply RoundFacts.round2_mono. now apply Qlt_le_weak.
    + vm_compute. discriminate.
Qed.

(** The median of a listed shape, in a clean set. *)
Lemma clean_median_of_shape (raw : RawFrame) (k : string) :
  In k (present (map shape (valid_shapes_df (clean_data' raw)))) ->
  exists m,
    median_duration_of_shape (clean_data' raw) k = Some (Fin m)
    /\ (0 <= m)%Q /\ (m <= 604800)%Q.
Proof.
  intros Hk. apply present_in, in_map_iff in Hk.
  destruct Hk as (row & Hshape & Hrow).
  unfold median_duration_of_shape. cbv zeta.
  set (shape_data := filter (fun r => eq_text (shape r) k)
                            (valid_shapes_df (clean_data' raw))).
  assert (Hsd : In row shape_data).
  { apply filter_In. split; [exact Hrow|]. rewrite Hshape. simpl.
    apply String.eqb_refl. }
  assert (Hdur : forall x, In x (map duration_seconds shape_data) ->
                           exists q, x = Fin q
                                     /\ (0 < q)%Q /\ (q < 604800)%Q).
  { intros x Hx. apply in_map_iff in Hx. destruct Hx as (r & <- & Hr).
    apply (clean_duration to_datetime_text to_numeric_text raw).
    apply filter_In in Hr. destruct Hr as [Hr _].
    unfold valid_shapes_df in Hr. apply filter_In in Hr. tauto. }
  assert (Hall : filter Float.notna (map duration_seconds shape_data)
                 = map duration_seconds shape_data).
  { apply HeaderFacts.filter_all. intros x Hx.
    destruct (Hdur x Hx) as (q & -> & _). reflexivity. }
  assert (Hne : map duration_seconds shape_data <> []).
  { destruct shape_data; [destruct Hsd | discriminate]. }
  destruct (median_in_range _ 0 604800 Hne Hdur) as (m & Em & Hm0 & Hm1).
  rewrite Hall, Em.
  destruct shape_data as [|r0 l0]; [destruct Hsd|]. cbn.
  exists (round2 m). split; [reflexivity|]. now apply round2_duration.
Qed.


End RankingTheorems.

(* ================================================================== *)
(** * More of the pipeline on concrete inputs                          *)
(* ================================================================== *)

Section MoreExamples.

Import Instances.

Local Notation parsed := (clean_data to_datetime_text to_numeric_text).
Local Notation kept i := (nth i (rows (parsed small_input)) one_row).

Lemma clean_shape_invariant_witness :
  has_shape (raw_columns small_input) = true
  /\ In (kept 0) (rows (parsed small_input))
  /\ exists t, shape (kept 0) = Some t
               /\ Text.strip (Text.lower t) = t
               /\ ~ In t ["unknown"; "other"; "nan"; ""; "na"; "unspecified"].
Proof.
  split; [reflexivity|]. split; [vm_compute; auto|].
  apply (clean_shape_invariant to_datetime_text to_numeric_text small_input).
  - reflexivity.
  - vm_compute. auto.
Defined.

Lemma clean_country_state_invariant_witness :
  In (kept 1) (rows (parsed small_input))
  /\ (exists t, country (kept 1) = Some t
                /\ Text.strip (Text.lower t) = t /\ t <> "gb" /\ t <> "")
  /\ (exists t, state (kept 1) = Some t
                /\ Text.strip (Text.upper t) = t /\ t <> "").
Proof.
  split; [vm_compute; auto|].
  apply (clean_country_state_invariant to_datetime_text to_numeric_text
           small_input).
  - reflexivity.
  - reflexivity.
  - vm_compute. auto.
Defined.

Lemma clean_country_state_of_text_witness :
  (raw_country nan_shape = Some " GB"
   /\ Text.is_ascii " GB" = true
   /\ country (kept 1) = Some "uk")
  /\ (raw_state nan_shape = Some ""
      /\ Text.is_ascii "" = true
      /\ state (kept 1) = Some "UNKNOWN").
Proof.
  destruct (clean_country_state_of_text to_datetime_text to_numeric_text
              all_columns nan_shape (kept 1)) as [Hc Hs]; [reflexivity|].
  split.
  - split; [reflexivity|]. split; [reflexivity|].
    exact (Hc " GB" eq_refl eq_refl eq_refl).
  - split; [reflexivity|]. split; [reflexivity|].
    exact (Hs "" eq_refl eq_refl eq_refl).
Defined.

Lemma clean_data_drops_unparsable_witness :
  In bad_time (raw_rows small_input)
  /\ to_datetime to_datetime_text (raw_datetime bad_time) = None
  /\ clean_row to_datetime_text to_numeric_text (raw_columns small_input)
       bad_time = None
  /\ (List.length (rows (parsed small_input))
      < List.length (raw_rows small_input))%nat.
Proof.
  assert (Hin : In bad_time (raw_rows small_input)).
  { right. right. right. right. left. reflexivity. }
  split; [exact Hin|]. split; [reflexivity|].
  apply (clean_data_drops_unparsable to_datetime_text to_numeric_text
           small_input bad_time Hin).
  left. reflexivity.
Defined.

Lemma clean_data_ignores_optional_columns_witness :
  map (fun r => (raw_datetime r, raw_duration_seconds r, raw_latitude r,
                 raw_longitude r)) (raw_rows small_input)
  = map (fun r => (raw_datetime r, raw_duration_seconds r, raw_latitude r,
                   raw_longitude r)) (raw_rows no_state_column)
  /\ map (fun r => (datetime r, year r, month r, hour r, duration_seconds r,
                    latitude r, longitude r))
         (rows (parsed (mkRawFrame all_columns (raw_rows small_input))))
     = map (fun r => (datetime r, year r, month r, hour r,
                      duration_seconds r, latitude r, longitude r))
           (rows (parsed (mkRawFrame (mkColumns true true false)
                            (raw_rows no_state_column)))).
Proof.
  split; [reflexivity|].
  apply (clean_data_ignores_optional_columns to_datetime_text
           to_numeric_text).
  reflexivity.
Defined.

Lemma standardize_idempotent_witness :
  In "d"%char
     (list_ascii_of_string (Header.standardize " Duration (Seconds) "))
  /\ (97 <= nat_of_ascii "d" <= 122 \/ 48 <= nat_of_ascii "d" <= 57
      \/ nat_of_ascii "d" = 95)%nat
  /\ Header.standardize (Header.standardize " Duration (Seconds) ")
     = Header.standardize " Duration (Seconds) ".
Proof.
  assert (H : In "d"%char
                 (list_ascii_of_string
                    (Header.standardize " Duration (Seconds) ")))
    by (vm_compute; auto).
  split; [exact H|]. split.
  - exact (proj1 (HeaderFacts.standardize_idempotent " Duration (Seconds) ")
                 "d"%char H).
  - exact (proj2 (HeaderFacts.standardize_idempotent " Duration (Seconds) ")).
Defined.

Lemma rename_columns_again_witness :
  Header.contains "durationseconds_1"
    ["datetime"; "durationseconds"; "durationhoursmin"] = false
  /\ Header.rename_columns
       (Header.rename_columns
          ["datetime"; "durationseconds"; "durationhoursmin"])
     = Header.rename_columns
         ["datetime"; "durationseconds"; "durationhoursmin"].
Proof.
  split; [reflexivity|].
  apply RenameFacts.rename_columns_again. reflexivity.
Defined.

Lemma groupings_ascending_witness :
  has_country (columns (parsed small_input)) = true
  /\ has_state (columns (parsed small_input)) = true
  /\ has_shape (columns (parsed small_input)) = true
  /\ exists s by_month,
      perform_eda (parsed small_input) = Some s
      /\ StronglySorted (fun a b => fst a < fst b) (sightings_by_year s)
      /\ StronglySorted (fun a b => fst a < fst b) (sightings_by_hour s)
      /\ StronglySorted (fun a b => fst a < fst b) by_month
      /\ sightings_by_month s
         = map (fun kv => (Series.rename_label month_map (fst kv), snd kv))
               by_month.
Proof.
  split; [reflexivity|]. split; [reflexivity|]. split; [reflexivity|].
  apply (groupings_ascending (parsed small_input)); reflexivity.
Defined.

Lemma proportions_are_percentages_witness :
  has_country (columns (parsed small_input)) = true
  /\ exists s,
      perform_eda (parsed small_input) = Some s
      /\ (0 <= proportion_over_1_hour_percent s)%Q
      /\ (proportion_over_1_hour_percent s
          <= proportion_over_5_min_percent s)%Q
      /\ (proportion_over_5_min_percent s <= 100)%Q.
Proof.
  split; [reflexivity|].
  destruct (proportions_are_percentages (parsed small_input))
    as (s & H1 & H2 & H3 & H4 & _);
    [reflexivity | reflexivity | reflexivity |].
  exists s. auto.
Defined.

Lemma clean_median_overall_witness :
  rows (parsed small_input) <> []
  /\ exists s m,
      perform_eda (parsed small_input) = Some s
      /\ median_duration_seconds_overall s = Some (Fin m)
      /\ (0 < m)%Q /\ (m < 604800)%Q.
Proof.
  split; [vm_compute; discriminate|].
  apply (clean_median_overall to_datetime_text to_numeric_text small_input);
    [reflexivity | reflexivity | reflexivity | vm_compute; discriminate].
Defined.

Lemma clean_median_night_day_witness :
  has_shape (raw_columns small_input) = true
  /\ exists s,
      perform_eda (parsed small_input) = Some s
      /\ (median_duration_night_seconds s = None <->
          forall row, In row (rows (parsed small_input)) ->
                      is_night (hour row) = false)
      /\ (median_duration_day_seconds s = None <->
          forall row, In row (rows (parsed small_input)) ->
                      is_night (hour row) = true).
Proof.
  split; [reflexivity|].
  destruct (clean_median_night_day to_datetime_text to_numeric_text
              small_input) as (s & H1 & H2 & H3 & _);
    [reflexivity | reflexivity | reflexivity |].
  exists s. auto.
Defined.

Lemma output_data_points_witness :
  In (nth 0 (output_data [one_row]) (mkGlobePoint NaN NaN 0 0 ""))
     (output_data [one_row])
  /\ exists row,
      In row [one_row]
      /\ (0.03 <= radius (nth 0 (output_data [one_row])
                            (mkGlobePoint NaN NaN 0 0 "")) <= 0.28)%R.
Proof.
  assert (H : In (nth 0 (output_data [one_row]) (mkGlobePoint NaN NaN 0 0 ""))
                 (output_data [one_row])) by (left; reflexivity).
  split; [exact H|].
  destruct (output_data_points [one_row] _ H) as (row & Hrow & _ & _ & _ & _
                                                  & _ & Hr).
  exists row. auto.
Defined.

Lemma magnitude_monotone_witness :
  (60 <= 2700)%Q
  /\ (magnitude [row_lasting 60; row_lasting 2700] (row_lasting 60)
      <= magnitude [row_lasting 60; row_lasting 2700] (row_lasting 2700))%R.
Proof.
  assert (H : (60 <= 2700)%Q) by (vm_compute; discriminate).
  split; [exact H|].
  apply (magnitude_monotone _ (row_lasting 60) (row_lasting 2700) 60 2700);
    [reflexivity | reflexivity | exact H].
Defined.

Lemma magnitude_saturates_witness :
  ((1 # 2 <= 1)%Q
   /\ magnitude [row_lasting (1 # 2); row_lasting 90000]
                (row_lasting (1 # 2)) = 0.03%R)
  /\ ((86400 <= 90000)%Q
      /\ magnitude [row_lasting (1 # 2); row_lasting 90000]
                   (row_lasting 90000) = 0.28%R).
Proof.
  split.
  - assert (H : (1 # 2 <= 1)%Q) by (vm_compute; discriminate).
    split; [exact H|].
    apply (proj1 (magnitude_saturates
                    [row_lasting (1 # 2); row_lasting 90000]
                    (row_lasting (1 # 2)) (1 # 2)
                    (or_introl eq_refl) eq_refl)).
    exact H.
  - assert (H : (86400 <= 90000)%Q) by (vm_compute; discriminate).
    split; [exact H|].
    apply (proj2 (magnitude_saturates
                    [row_lasting (1 # 2); row_lasting 90000]
                    (row_lasting 90000) 90000
                    (or_intror (or_introl eq_refl)) eq_refl)).
    exact H.
Defined.

(** The sample that takes the first rows only returns rows of the frame. *)
Lemma first_rows_within (l : list Row) :
  (MAX_POINTS_ON_GLOBE <= List.length l)%nat ->
  List.length (sample MAX_POINTS_ON_GLOBE 42 l) = MAX_POINTS_ON_GLOBE
  /\ forall r, In r (sample MAX_POINTS_ON_GLOBE 42 l) -> In r l.
Proof.
  intros H. unfold sample. split.
  - now apply firstn_length_le.
  - intros r Hr. rewrite <- (firstn_skipn MAX_POINTS_ON_GLOBE l).
    apply in_or_app. now left.
Qed.

Lemma clean_globe_points_witness :
  (List.length (export_globe_data sample (parsed small_input)) <= 10000)%nat
  /\ In (nth 0 (export_globe_data sample (parsed small_input))
             (mkGlobePoint NaN NaN 0 0 ""))
        (export_globe_data sample (parsed small_input))
  /\ exists la lo,
      lat (nth 0 (export_globe_data sample (parsed small_input))
                 (mkGlobePoint NaN NaN 0 0 "")) = Fin la
      /\ lng (nth 0 (export_globe_data sample (parsed small_input))
                    (mkGlobePoint NaN NaN 0 0 "")) = Fin lo
      /\ (-90 <= la)%Q /\ (la <= 90)%Q /\ (-180 <= lo)%Q /\ (lo <= 180)%Q.
Proof.
  destruct (clean_globe_points to_datetime_text to_numeric_text sample
              small_input first_rows_within) as [Hlen Hp].
  split; [exact Hlen|].
  assert (H : In (nth 0 (export_globe_data sample (parsed small_input))
                      (mkGlobePoint NaN NaN 0 0 ""))
                 (export_globe_data sample (parsed small_input)))
    by (left; reflexivity).
  split; [exact H | exact (Hp _ H)].
Defined.

Lemma main_outcome_witness :
  (rows (parsed no_state_column) <> []
   /\ main to_datetime_text to_numeric_text sample no_state_column = None)
  /\ (rows (parsed small_input) <> []
      /\ exists s,
          perform_eda (parsed small_input) = Some s
          /\ json_field "total_sightings" (json_of_summary s)
             = Some (JInt 3)).
Proof.
  split.
  - assert (H : rows (parsed no_state_column) <> [])
      by (vm_compute; discriminate).
    split; [exact H|].
    apply (proj1 (main_outcome to_datetime_text to_numeric_text sample
                    no_state_column H)).
    reflexivity.
  - assert (H : rows (parsed small_input) <> [])
      by (vm_compute; discriminate).
    split; [exact H|].
    destruct (proj2 (main_outcome to_datetime_text to_numeric_text sample
                       small_input H) eq_refl) as (s & H1 & _ & H3).
    exists s. split; [exact H1 | exact H3].
Defined.

Lemma insert_by_count_sorted (x : string * nat) (l : list (string * nat)) :
  StronglySorted (fun a b => (snd b <= snd a)%nat) l ->
  StronglySorted (fun a b => (snd b <= snd a)%nat)
    (Series.insert_by (fun a b => (snd b <=? snd a)%nat) x l).
Proof.
  induction 1 as [|y l Hs IH Hy]; simpl.
  - repeat constructor.
  - destruct (snd y <=? snd x)%nat eqn:E.
    + apply Nat.leb_le in E. constructor; [now constructor|].
      constructor; [exact E|].
      apply Forall_impl with (P := fun b => (snd b <= snd y)%nat);
        [|exact Hy].
      intros; lia.
    + apply Nat.leb_gt in E. constructor; [exact IH|].
      eapply Permutation_Forall;
        [symmetry; apply SeriesFacts.insert_by_perm|].
      constructor; [lia | exact Hy].
Qed.

Lemma by_count_descending_ok : Ranking.descending by_count_descending.
Proof.
  intros s. split; [apply SeriesFacts.sort_by_perm|].
  unfold by_count_descending, Series.sort_by.
  induction s as [|x s IH]; simpl; [constructor|].
  now apply insert_by_count_sorted.
Qed.





Example small_input_rankings :
  (top_shapes_series by_count_descending by_count_descending
     (parsed small_input),
   top_countries by_count_descending by_count_descending
     (parsed small_input),
   top_states_us by_count_descending by_count_descending
     (parsed small_input),
   most_common_shape by_count_descending by_count_descending
     (parsed small_input),
   median_durations_by_top_shapes by_count_descending by_count_descending
     (parsed small_input))
  = (Some [("cylinder", 1%nat); ("light", 1%nat)],
     Some [("nan", 1%nat); ("uk", 1%nat); ("us", 1%nat)],
     Some [("TX", 1%nat)],
     Some "cylinder",
     Some [("cylinder", Some (Fin (270000 # 100)));
           ("light", Some (Fin (6000 # 100)))]).
Proof. vm_compute. reflexivity. Qed.

End MoreExamples.
